(** * swarmchaser: the release pipeline and the torrent rewriter

    A shallow embedding of the Python sources

      - [swarmchaser/utils.py]        genre parsing,
      - [swarmchaser/swarmchaser.py]  release-name parsing, the torrent
                                      rewriter [TorrentMaker], [infohash],
      - [swarmchaser/models.py]       the record type and [update_eligibility],
      - [cli.py]                      the [download] and [upload] commands,

    followed by the properties established about them.

    Text is modelled as [string] (a sequence of 8-bit characters); the
    functions below agree with Python's on ASCII text, which is what the
    release titles and the metainfo keys of the examples consist of. *)

From Stdlib Require Import List String Ascii ZArith Arith Bool Lia.
From Stdlib Require Import Sorting.Sorted Sorting.Permutation Sorting.Mergesort.
From Stdlib Require Import Orders DecimalString DecimalPos RelationClasses Relations.
Import ListNotations.

Open Scope list_scope.
Open Scope string_scope.

(* ================================================================== *)
(** * Python string primitives *)
(* ================================================================== *)

Module pystr.

(** [str.isspace] on one character (ASCII range): tab to carriage
    return, the four separators 0x1c-0x1f, and the space. *)
Definition isspace (c : ascii) : bool :=
  let n := nat_of_ascii c in
  ((9 <=? n)%nat && (n <=? 13)%nat) || ((28 <=? n)%nat && (n <=? 32)%nat).

Definition isdigit (c : ascii) : bool :=
  let n := nat_of_ascii c in (48 <=? n)%nat && (n <=? 57)%nat.

Definition isupper (c : ascii) : bool :=
  let n := nat_of_ascii c in (65 <=? n)%nat && (n <=? 90)%nat.

Definition islower (c : ascii) : bool :=
  let n := nat_of_ascii c in (97 <=? n)%nat && (n <=? 122)%nat.

(** [c in s] for a one-character [c]. *)
Fixpoint contains (c : ascii) (s : string) : bool :=
  match s with
  | EmptyString => false
  | String d s' => Ascii.eqb c d || contains c s'
  end.

(** [s.split(sep)] for a one-character separator: never empty. *)
Fixpoint split (sep : ascii) (s : string) : list string :=
  match s with
  | EmptyString => [EmptyString]
  | String c s' =>
      if Ascii.eqb c sep then EmptyString :: split sep s'
      else match split sep s' with
           | h :: t => String c h :: t
           | [] => [String c EmptyString]
           end
  end.

Fixpoint lstrip (s : string) : string :=
  match s with
  | EmptyString => EmptyString
  | String c s' => if isspace c then lstrip s' else s
  end.

Fixpoint rstrip (s : string) : string :=
  match s with
  | EmptyString => EmptyString
  | String c s' =>
      match rstrip s' with
      | EmptyString => if isspace c then EmptyString else String c EmptyString
      | r => String c r
      end
  end.

(** [s.strip()] *)
Definition strip (s : string) : string := rstrip (lstrip s).

Definition lower_char (c : ascii) : ascii :=
  if isupper c then ascii_of_nat (nat_of_ascii c + 32) else c.

(** [s.lower()] *)
Fixpoint lower (s : string) : string :=
  match s with
  | EmptyString => EmptyString
  | String c s' => String (lower_char c) (lower s')
  end.

(** [s.replace(old, new)] for a one-character [old]. *)
Fixpoint replace (old : ascii) (new : string) (s : string) : string :=
  match s with
  | EmptyString => EmptyString
  | String c s' =>
      if Ascii.eqb c old then new ++ replace old new s'
      else String c (replace old new s')
  end.

(** The value of a string of decimal digits, most significant first
    ([int(s)] on such a string). *)
Fixpoint int_digits (acc : Z) (s : string) : Z :=
  match s with
  | EmptyString => acc
  | String c s' => int_digits (10 * acc + Z.of_nat (nat_of_ascii c - 48)) s'
  end.

Definition int (s : string) : Z := int_digits 0 s.

End pystr.

(* ================================================================== *)
(** * swarmchaser/utils.py *)
(* ================================================================== *)

Module utils.

(** [format_genre]: the Discogs genre "Folk, World, & Country" is
    mapped to the empty tag; any other genre is trimmed, lower-cased,
    its periods removed and its spaces turned into periods. *)
Definition format_genre (genre : string) : string :=
  if String.eqb genre "Folk, World, & Country" then EmptyString
  else
    pystr.replace " " "."
      (pystr.replace "." EmptyString (pystr.lower (pystr.strip genre))).

(** The [for separator in potential_separators: ... else: ...] loop:
    the first separator that occurs in [genres], [None] when the loop
    runs to its end. *)
Fixpoint find_separator (potential_separators genres : string)
  : option ascii :=
  match potential_separators with
  | EmptyString => None
  | String separator rest =>
      if pystr.contains separator genres then Some separator
      else find_separator rest genres
  end.

Definition parse_genres (genres : string) : list string :=
  let potential_separators := "|,/" in
  let separator := find_separator potential_separators genres in
  let genres :=
    match separator with
    | Some sep => pystr.split sep genres
    | None => [genres]
    end in
  map format_genre genres.

End utils.

(* ================================================================== *)
(** * The regular expression of [parse_releasename] *)
(* ================================================================== *)

(** A backtracking matcher in the style of Python's [re]: alternatives
    are tried in order, a starred class is greedy and gives characters
    back one at a time.  Only the constructs the pattern of
    [parse_releasename] uses are present. *)
Module re.

Inductive regex : Type :=
| Eps : regex
| Chr (p : ascii -> bool) : regex             (* one character of a class *)
| Cat (r1 r2 : regex) : regex
| Star (p : ascii -> bool) : regex            (* [class]*, greedy *)
| Group (name : string) (r : regex) : regex.  (* (?P<name>...) *)

Definition groups := list (string * string).

(** Greedy star: consume while the class matches, then try the
    continuation; on failure give the last character back. *)
Fixpoint star (p : ascii -> bool) (s : string) (taken : string)
    (k : string -> string -> option groups) : option groups :=
  match s with
  | EmptyString => k taken s
  | String c s' =>
      if p c then
        match star p s' (taken ++ String c EmptyString) k with
        | Some g => Some g
        | None => k taken s
        end
      else k taken s
  end.

(** [run r s g k]: match [r] at the front of [s]; the continuation
    receives the text consumed, the rest of the subject and the
    groups bound so far. *)
Fixpoint run (r : regex) (s : string) (g : groups)
    (k : string -> string -> groups -> option groups) : option groups :=
  match r with
  | Eps => k EmptyString s g
  | Chr p =>
      match s with
      | String c s' => if p c then k (String c EmptyString) s' g else None
      | EmptyString => None
      end
  | Cat r1 r2 =>
      run r1 s g (fun t1 s1 g1 =>
        run r2 s1 g1 (fun t2 s2 g2 => k (t1 ++ t2) s2 g2))
  | Star p => star p s EmptyString (fun t s' => k t s' g)
  | Group name r' =>
      run r' s g (fun t s' g' => k t s' ((name, t) :: g'))
  end.

(** [re.match(pattern, s)]: anchored at the start only. *)
Definition rmatch (r : regex) (s : string) : option groups :=
  run r s [] (fun _ _ g => Some g).

(** [match.groupdict()[name]] *)
Fixpoint group (name : string) (g : groups) : option string :=
  match g with
  | [] => None
  | (n, v) :: g' => if String.eqb n name then Some v else group name g'
  end.

Definition lit_char (c : ascii) : regex := Chr (Ascii.eqb c).

Fixpoint lit (s : string) : regex :=
  match s with
  | EmptyString => Eps
  | String c s' => Cat (lit_char c) (lit s')
  end.

Fixpoint times (n : nat) (r : regex) : regex :=
  match n with
  | O => Eps
  | S n' => Cat r (times n' r)
  end.

(** [.] : any character but a newline. *)
Definition dot (c : ascii) : bool := negb (Ascii.eqb c "010"%char).

End re.

(* ================================================================== *)
(** * swarmchaser/swarmchaser.py: release names *)
(* ================================================================== *)

Record ReleaseName : Type := mkReleaseName {
  rn_artist : string;
  rn_album : string;
  rn_year : Z;
  rn_genres : list string
}.

(** The class [[A-Za-z\s,.-]] of the genre group. *)
Definition genre_class (c : ascii) : bool :=
  pystr.isupper c || pystr.islower c || pystr.isspace c
  || Ascii.eqb c "," || Ascii.eqb c "." || Ascii.eqb c "-".

(** The pattern of [parse_releasename], group by group: an opening
    parenthesis, the group genre (any number of letters, whitespace,
    commas, periods and hyphens), a closing parenthesis, a space, an
    opening bracket, the group format (any number of capitals), a closing
    bracket, a space, the group artist (anything), the text " - ", the
    group album (anything), " - ", the group year (four digits), and
    a comma followed by a space. *)
Definition releasename_pattern : re.regex :=
  re.Cat (re.lit "(")
  (re.Cat (re.Group "genre" (re.Star genre_class))
  (re.Cat (re.lit ") [")
  (re.Cat (re.Group "format" (re.Star pystr.isupper))
  (re.Cat (re.lit "] ")
  (re.Cat (re.Group "artist" (re.Star re.dot))
  (re.Cat (re.lit " - ")
  (re.Cat (re.Group "album" (re.Star re.dot))
  (re.Cat (re.lit " - ")
  (re.Cat (re.Group "year" (re.times 4 (re.Chr pystr.isdigit)))
          (re.lit ", ")))))))))).

Definition parse_releasename (releasename : string) : option ReleaseName :=
  match re.rmatch releasename_pattern releasename with
  | None => None
  | Some matches =>
      match re.group "artist" matches, re.group "album" matches,
            re.group "year" matches, re.group "genre" matches with
      | Some artist, Some album, Some year, Some genre =>
          Some (mkReleaseName artist album (pystr.int year)
                              (utils.parse_genres genre))
      | _, _, _, _ => None
      end
  end.

(* ================================================================== *)
(** * Python exceptions and dictionaries *)
(* ================================================================== *)

Inductive exn : Type :=
| KeyError
| TypeError
| AttributeError
| AssertionError
| DecodeError          (* pyben cannot parse its input *)
| JackettException     (* swarmchaser.exceptions *)
| RequestException.    (* a collaborator call failed *)

Inductive result (A : Type) : Type :=
| Ok (a : A)
| Raise (e : exn).
Arguments Ok {A} a.
Arguments Raise {A} e.

Definition bind {A B : Type} (m : result A) (f : A -> result B) : result B :=
  match m with
  | Ok a => f a
  | Raise e => Raise e
  end.

Notation "x <- m ;; k" := (bind m (fun x => k))
  (at level 61, m at next level, right associativity).
Notation "' p <- m ;; k" := (bind m (fun x => match x with p => k end))
  (at level 61, p pattern, m at next level, right associativity).

(** A Python [dict] with text keys: the entries in insertion order, one
    entry per key. *)
Module pydict.

Definition dict (V : Type) : Type := list (string * V).

(** [d.get(k)] / the lookup behind [d[k]] *)
Fixpoint get {V : Type} (k : string) (d : dict V) : option V :=
  match d with
  | [] => None
  | (k', v) :: d' => if String.eqb k' k then Some v else get k d'
  end.

(** [d[k] = v]: an existing key keeps its place, a new key goes last. *)
Fixpoint set {V : Type} (k : string) (v : V) (d : dict V) : dict V :=
  match d with
  | [] => [(k, v)]
  | (k', v') :: d' =>
      if String.eqb k' k then (k', v) :: d' else (k', v') :: set k v d'
  end.

(** [d.keys()], in iteration order *)
Definition keys {V : Type} (d : dict V) : list string := map fst d.

End pydict.

(** [sorted] on a list of text keys: Python compares [str] by code
    point, which on the UTF-8 bytes is the byte-wise lexicographic order
    [String.leb].  Python's sort is a stable merge sort, as is this one. *)
Module StringOrder <: TotalLeBool.
Definition t := string.
Definition leb := String.leb.
Definition leb_total : forall a1 a2, leb a1 a2 = true \/ leb a2 a1 = true :=
  String.leb_total.
End StringOrder.

Module StringSort := Sort StringOrder.

Definition sorted (l : list string) : list string := StringSort.sort l.

(* ================================================================== *)
(** * pyben: bencoded values and the codec *)
(* ================================================================== *)

(** The values [pyben.bendecode] returns and [pyben.benencode] accepts:
    integers, strings, lists and dictionaries.  A dictionary is a Python
    [dict], so its entries carry their insertion order. *)
#[warnings="-register-all"]
Inductive bvalue : Type :=
| BInt (n : Z)
| BStr (s : string)
| BList (l : list bvalue)
| BDict (d : list (string * bvalue)).

(** pyben is a third-party package imported by [swarmchaser.py].  Its
    encoder walks [dict.items()], so it writes the entries of a
    dictionary in the order the dictionary holds them; [setup_torrent]
    orders the keys of the info dictionary itself for that reason
    ("Torrent hash requires keys to be ordered"). *)
Module pyben.

(** [str(n)] for an integer *)
Definition str_of_Z (n : Z) : string :=
  DecimalString.NilEmpty.string_of_int (Z.to_int n).

Definition bencode_str (s : string) : string :=
  str_of_Z (Z.of_nat (String.length s)) ++ ":" ++ s.

Definition bencode_int (n : Z) : string := "i" ++ str_of_Z n ++ "e".

Fixpoint benencode (val : bvalue) : string :=
  match val with
  | BStr s => bencode_str s
  | BInt n => bencode_int n
  | BList l =>
      "l" ++ (fix items (l : list bvalue) : string :=
                match l with
                | [] => EmptyString
                | x :: l' => benencode x ++ items l'
                end) l ++ "e"
  | BDict d =>
      "d" ++ (fix items (d : list (string * bvalue)) : string :=
                match d with
                | [] => EmptyString
                | (key, item) :: d' =>
                    bencode_str key ++ benencode item ++ items d'
                end) d ++ "e"
  end.

(** Leading decimal digits of [s] and what follows them. *)
Fixpoint span_digits (s : string) : string * string :=
  match s with
  | String c s' =>
      if pystr.isdigit c
      then let (ds, rest) := span_digits s' in (String c ds, rest)
      else (EmptyString, s)
  | EmptyString => (EmptyString, EmptyString)
  end.

(** The first [n] characters of [s] and the rest; [None] when [s] is
    shorter than [n]. *)
Fixpoint take (n : nat) (s : string) : option (string * string) :=
  match n, s with
  | O, _ => Some (EmptyString, s)
  | S n', String c s' =>
      match take n' s' with
      | Some (t, rest) => Some (String c t, rest)
      | None => None
      end
  | S _, EmptyString => None
  end.

(** i<digits>e, with an optional minus sign *)
Definition bendecode_int (body : string) : option (bvalue * string) :=
  let (neg, body') :=
    match body with
    | String "-" b => (true, b)
    | _ => (false, body)
    end in
  match span_digits body' with
  | (EmptyString, _) => None
  | (ds, String "e" rest) =>
      Some (BInt (if neg then - pystr.int ds else pystr.int ds), rest)
  | _ => None
  end.

(** <length>:<bytes> *)
Definition bendecode_str (bits : string) : option (string * string) :=
  match span_digits bits with
  | (EmptyString, _) => None
  | (ds, String ":" rest) => take (Z.to_nat (pystr.int ds)) rest
  | _ => None
  end.

(** One value from the front of [bits], and the bytes after it.  The
    three functions follow [bendecode], [bendecode_list] and
    [bendecode_dict]; [fuel] bounds the nesting of calls, and
    [bendecode] starts with enough of it for every encoded value
    ([bendecode_benencode]).  Bytes that are not a bencoded value are
    refused; pyben is more lenient with some of them, which no
    statement here depends on. *)
Fixpoint decode (fuel : nat) (bits : string) : option (bvalue * string) :=
  match fuel with
  | O => None
  | S fuel' =>
      match bits with
      | String "i" body => bendecode_int body
      | String "l" body => decode_list fuel' body []
      | String "d" body => decode_dict fuel' body []
      | String c _ =>
          if pystr.isdigit c then
            match bendecode_str bits with
            | Some (s, rest) => Some (BStr s, rest)
            | None => None
            end
          else None
      | EmptyString => None
      end
  end
with decode_list (fuel : nat) (bits : string) (lst : list bvalue)
  : option (bvalue * string) :=
  match fuel with
  | O => None
  | S fuel' =>
      match bits with
      | String "e" rest => Some (BList lst, rest)
      | _ =>
          match decode fuel' bits with
          | Some (item, rest) => decode_list fuel' rest (lst ++ [item])%list
          | None => None
          end
      end
  end
with decode_dict (fuel : nat) (bits : string) (dic : pydict.dict bvalue)
  : option (bvalue * string) :=
  match fuel with
  | O => None
  | S fuel' =>
      match bits with
      | String "e" rest => Some (BDict dic, rest)
      | _ =>
          match decode fuel' bits with
          | Some (BStr key, rest) =>
              match decode fuel' rest with
              | Some (item, rest') =>
                  decode_dict fuel' rest' (pydict.set key item dic)
              | None => None
              end
          | _ => None
          end
      end
  end.

(** [pyben.bendecode(bits)]: the value and the number of bytes read. *)
Definition bendecode (bits : string) : result (bvalue * nat) :=
  match decode (2 * String.length bits + 2) bits with
  | Some (v, rest) => Ok (v, String.length bits - String.length rest)
  | None => Raise DecodeError
  end.

End pyben.

(* ================================================================== *)
(** * hashlib: SHA-1 *)
(* ================================================================== *)

(** [hashlib.sha1] of the Python standard library, written out from the
    definition of SHA-1 (FIPS 180-4) on 32-bit words; a word is a [Z] in
    [0, 2^32), a byte a [Z] in [0, 256). *)
Module hashlib.

Local Open Scope Z_scope.

Definition w32 (x : Z) : Z := Z.land x 4294967295.

Definition add32 (x y : Z) : Z := w32 (x + y).

Definition rotl (n : Z) (x : Z) : Z :=
  w32 (Z.lor (Z.shiftl x n) (Z.shiftr x (32 - n))).

Definition not32 (x : Z) : Z := Z.lxor x 4294967295.

Definition bytes_of_string (s : string) : list Z :=
  map (fun c => Z.of_N (N_of_ascii c)) (list_ascii_of_string s).

(** The eight bytes of a 64-bit length, most significant first. *)
Definition be64 (n : Z) : list Z :=
  map (fun i => Z.land (Z.shiftr n (8 * i)) 255) [7; 6; 5; 4; 3; 2; 1; 0].

(** The message, a one bit, zeros up to 56 modulo 64, the bit length. *)
Definition pad (msg : list Z) : list Z :=
  let len := Z.of_nat (List.length msg) in
  let zeros := Z.to_nat ((55 - len) mod 64) in
  (msg ++ 128 :: repeat 0 zeros ++ be64 (8 * len))%list.

Definition be32 (b : list Z) : Z :=
  fold_left (fun acc x => Z.lor (Z.shiftl acc 8) x) b 0.

(** The sixteen big-endian words of a 64-byte block. *)
Fixpoint words (n : nat) (block : list Z) : list Z :=
  match n with
  | O => []
  | S n' => be32 (firstn 4 block) :: words n' (skipn 4 block)
  end.

(** The message schedule, extended by [n] words:
    w[t] = rotl 1 (w[t-3] xor w[t-8] xor w[t-14] xor w[t-16]). *)
Fixpoint schedule (n : nat) (w : list Z) : list Z :=
  match n with
  | O => w
  | S n' =>
      let t := List.length w in
      let at' (k : nat) := nth (t - k) w 0 in
      let x := Z.lxor (Z.lxor (at' 3%nat) (at' 8%nat))
                      (Z.lxor (at' 14%nat) (at' 16%nat)) in
      schedule n' (w ++ [rotl 1 x])%list
  end.

Definition state : Type := Z * Z * Z * Z * Z.

Definition f_k (t : nat) (b c d : Z) : Z * Z :=
  if (t <? 20)%nat then
    (Z.lor (Z.land b c) (Z.land (not32 b) d), 1518500249)
  else if (t <? 40)%nat then
    (Z.lxor (Z.lxor b c) d, 1859775393)
  else if (t <? 60)%nat then
    (Z.lor (Z.lor (Z.land b c) (Z.land b d)) (Z.land c d), 2400959708)
  else
    (Z.lxor (Z.lxor b c) d, 3395469782).

Definition round (st : state) (tw : nat * Z) : state :=
  let '(a, b, c, d, e) := st in
  let (t, w) := tw in
  let (f, k) := f_k t b c d in
  let temp := add32 (add32 (add32 (add32 (rotl 5 a) f) e) k) w in
  (temp, a, rotl 30 b, c, d).

Definition compress (h : state) (block : list Z) : state :=
  let w := schedule 64 (words 16 block) in
  let '(a, b, c, d, e) := fold_left round (combine (seq 0 80) w) h in
  let '(h0, h1, h2, h3, h4) := h in
  (add32 h0 a, add32 h1 b, add32 h2 c, add32 h3 d, add32 h4 e).

Fixpoint blocks (n : nat) (h : state) (data : list Z) : state :=
  match n with
  | O => h
  | S n' => blocks n' (compress h (firstn 64 data)) (skipn 64 data)
  end.

Definition word_bytes (w : Z) : list Z :=
  map (fun i => Z.land (Z.shiftr w (8 * i)) 255) [3; 2; 1; 0].

(** [hashlib.sha1(data).digest()]: the twenty bytes of the digest. *)
Definition sha1 (data : string) : list Z :=
  let padded := pad (bytes_of_string data) in
  let h := (1732584193, 4023233417, 2562383102, 271733878, 3285377520) in
  let '(h0, h1, h2, h3, h4) :=
    blocks (List.length padded / 64)%nat h padded in
  (word_bytes h0 ++ word_bytes h1 ++ word_bytes h2
     ++ word_bytes h3 ++ word_bytes h4)%list.

Definition hex_digit (n : Z) : ascii :=
  if n <? 10 then ascii_of_N (Z.to_N (48 + n))
  else ascii_of_N (Z.to_N (87 + n)).

Fixpoint hex (bytes : list Z) : string :=
  match bytes with
  | [] => EmptyString
  | b :: bytes' =>
      String (hex_digit (Z.shiftr b 4))
        (String (hex_digit (Z.land b 15)) (hex bytes'))
  end.

(** [hashlib.sha1(data).hexdigest()]: the digest as lower-case
    hexadecimal text, two characters per byte. *)
Definition sha1_hexdigest (data : string) : string := hex (sha1 data).

End hashlib.

(* ================================================================== *)
(** * JSON values, collaborators and their effects *)
(* ================================================================== *)

(** What [response.json()] of [requests] and the Discogs client hand
    back: parsed JSON. *)
#[warnings="-register-all"]
Inductive json : Type :=
| JNull
| JBool (b : bool)
| JInt (n : Z)
| JStr (s : string)
| JList (l : list json)
| JDict (d : list (string * json)).

(** [v[k]] for a text key *)
Definition json_getitem (v : json) (k : string) : result json :=
  match v with
  | JDict d =>
      match pydict.get k d with
      | Some x => Ok x
      | None => Raise KeyError
      end
  | _ => Raise TypeError
  end.

(** [len(v)] *)
Definition json_len (v : json) : result nat :=
  match v with
  | JList l => Ok (List.length l)
  | JDict d => Ok (List.length d)
  | JStr s => Ok (String.length s)
  | _ => Raise TypeError
  end.

(** [v == "text"] *)
Definition json_eq_str (v : json) (s : string) : bool :=
  match v with
  | JStr s' => String.eqb s' s
  | _ => false
  end.

(** [v.json()] for a parsed JSON value [v]: [dict], [list], [str],
    [int], [bool] and [None] have no attribute [json]. *)
Definition json_call_json (v : json) : result json := Raise AttributeError.

Inductive level : Type := DEBUG | INFO | WARNING.

(** The calls a command makes to the outside, in the order made.  A
    [Logging] event carries the literal text of the message and the
    values formatted into it. *)
Inductive event : Type :=
| DiscogsSearch (query : string)
| DiscogsRelease (id : Z)
| RedactedSearch (query : string)
| RedactedPost (params : json) (filename : string) (file_input : string)
| HttpGet (url : string)
| QbtLogin
| QbtTorrentsInfo (torrent_hashes : string)
| QbtTorrentsAdd (torrent_files : string) (category : string)
                 (tags : option string) (seeding_time_limit : option Z)
| QbtTorrentsDelete (delete_files : bool) (torrent_hashes : string)
| Logging (lvl : level) (message : string) (args : list json)
| Echo (line : string).

(** The answers of the collaborators during one run of a command, the
    clock reading [int(datetime.now().timestamp())] and the
    configuration. *)
Record Env : Type := mkEnv {
  now : Z;
  http_get : string -> result string;
  discogs_client_search : string -> result (list Z);
  discogs_client_release : Z -> result json;
  redacted_browse : string -> result json;
  redacted_post : json -> string -> string -> result json;
  (** [RedactedAlbumParameters(release).setup_params()]: the upload
      form built from the stored Discogs release. *)
  album_params : option json -> result json;
  qbt_torrents_info : string -> result (list string);
  REDACTED_ANNOUNCE_URL : string
}.

Definition REDACTED_SOURCE_VALUE : string := "RED".

(** A computation that appends to the trace of events and either
    returns or raises. *)
Definition M (A : Type) : Type := list event -> list event * result A.

Definition ret {A : Type} (a : A) : M A := fun tr => (tr, Ok a).

Definition bindM {A B : Type} (m : M A) (f : A -> M B) : M B :=
  fun tr =>
    match m tr with
    | (tr', Ok a) => f a tr'
    | (tr', Raise e) => (tr', Raise e)
    end.

Definition lift {A : Type} (r : result A) : M A := fun tr => (tr, r).

Definition emit (e : event) : M unit := fun tr => ((tr ++ [e])%list, Ok tt).

Notation "x <~ m ;; k" := (bindM m (fun x => k))
  (at level 61, m at next level, right associativity).
Notation "' p <~ m ;; k" := (bindM m (fun x => match x with p => k end))
  (at level 61, p pattern, m at next level, right associativity).
Notation "m ;;; k" := (bindM m (fun _ => k))
  (at level 61, right associativity).

(** A call to a collaborator: the call is recorded, then its answer (or
    its failure) comes back. *)
Definition call {A : Type} (e : event) (answer : result A) : M A :=
  emit e ;;; lift answer.

(* ================================================================== *)
(** * swarmchaser/swarmchaser.py: TorrentMaker and infohash *)
(* ================================================================== *)

(** [v[k]] on a decoded value. *)
Definition bvalue_getitem (v : bvalue) (k : string) : result bvalue :=
  match v with
  | BDict d =>
      match pydict.get k d with
      | Some x => Ok x
      | None => Raise KeyError
      end
  | _ => Raise TypeError
  end.

(** [info = v.copy()] followed by [info["private"] = ...]: a dictionary
    is copied; a list has [copy] but no text keys; integers and strings
    have no [copy]. *)
Definition bvalue_copy_dict (v : bvalue) : result (pydict.dict bvalue) :=
  match v with
  | BDict d => Ok d
  | BList _ => Raise TypeError
  | _ => Raise AttributeError
  end.

Module TorrentMaker.

Record t : Type := mk {
  download_url : string;
  announce : string;
  source : string;
  private : bool
}.

(** [ordered_info[key] = info[key]] *)
Definition order_step (info ordered_info : pydict.dict bvalue) (key : string)
  : pydict.dict bvalue :=
  match pydict.get key info with
  | Some v => pydict.set key v ordered_info
  | None => ordered_info
  end.

(** The loop
      [for key in sorted(info.keys()): ordered_info[key] = info[key]]
    started from an empty [OrderedDict]. *)
Definition order_info (info : pydict.dict bvalue) : pydict.dict bvalue :=
  fold_left (order_step info) (sorted (pydict.keys info)) [].

(** [setup_torrent]; [now] is [int(datetime.now().timestamp())]. *)
Definition setup_torrent (self : t) (now : Z) (bytestring : string)
  : result bvalue :=
  '(torrent, _) <- pyben.bendecode bytestring ;;
  let new_torrent := [] in
  let new_torrent := pydict.set "announce" (BStr (announce self)) new_torrent in
  let new_torrent := pydict.set "creation date" (BInt now) new_torrent in
  info0 <- bvalue_getitem torrent "info" ;;
  info <- bvalue_copy_dict info0 ;;
  let info := pydict.set "private" (BInt (Z.b2z (private self))) info in
  let info := pydict.set "source" (BStr (source self)) info in
  let ordered_info := order_info info in
  let new_torrent := pydict.set "info" (BDict ordered_info) new_torrent in
  Ok (BDict new_torrent).

(** [edit_torrent]: the bytes held by the returned buffer. *)
Definition edit_torrent (self : t) (now : Z) (bytestring : string)
  : result string :=
  torrent <- setup_torrent self now bytestring ;;
  Ok (pyben.benencode torrent).

(** [retrieve_torrent]: an empty body is refused. *)
Definition retrieve_torrent (env : Env) (url : string) : M string :=
  content <~ call (HttpGet url) (http_get env url) ;;
  if (String.length content =? 0)%nat then lift (Raise JackettException)
  else ret content.

Definition create (env : Env) (self : t) : M string :=
  bytestring <~ retrieve_torrent env (download_url self) ;;
  lift (edit_torrent self (now env) bytestring).

End TorrentMaker.

(** [infohash(torrent: bytes) -> str] *)
Definition infohash (torrent : string) : result string :=
  '(torrent, _) <- pyben.bendecode torrent ;;
  info <- bvalue_getitem torrent "info" ;;
  Ok (hashlib.sha1_hexdigest (pyben.benencode info)).

(* ================================================================== *)
(** * swarmchaser/models.py: the record *)
(* ================================================================== *)

Inductive TorrentStatus : Type :=
| tracked
| eligible
| downloaded
| uploaded
| ineligible.

Definition TorrentStatus_eqb (a b : TorrentStatus) : bool :=
  match a, b with
  | tracked, tracked | eligible, eligible | downloaded, downloaded
  | uploaded, uploaded | ineligible, ineligible => true
  | _, _ => false
  end.

Module Torrent.

Record t : Type := mk {
  id : Z;
  rutracker_id : Z;
  releasename : string;
  artist : string;
  album : string;
  year : Z;
  details : option string;
  download_url : string;
  create_date : Z;
  size : Z;
  genres : option string;
  discogs_release_id : option Z;
  discogs_release : option json;
  source_infohash : string;
  target_infohash : option string;
  last_updated : Z;
  status : TorrentStatus;
  exists_redacted : option bool
}.

Definition set_status (v : TorrentStatus) (x : t) : t :=
  mk (id x) (rutracker_id x) (releasename x) (artist x) (album x) (year x)
     (details x) (download_url x) (create_date x) (size x) (genres x)
     (discogs_release_id x) (discogs_release x) (source_infohash x)
     (target_infohash x) (last_updated x) v (exists_redacted x).

Definition set_last_updated (v : Z) (x : t) : t :=
  mk (id x) (rutracker_id x) (releasename x) (artist x) (album x) (year x)
     (details x) (download_url x) (create_date x) (size x) (genres x)
     (discogs_release_id x) (discogs_release x) (source_infohash x)
     (target_infohash x) v (status x) (exists_redacted x).

Definition set_discogs_release_id (v : option Z) (x : t) : t :=
  mk (id x) (rutracker_id x) (releasename x) (artist x) (album x) (year x)
     (details x) (download_url x) (create_date x) (size x) (genres x)
     v (discogs_release x) (source_infohash x)
     (target_infohash x) (last_updated x) (status x) (exists_redacted x).

Definition set_discogs_release (v : option json) (x : t) : t :=
  mk (id x) (rutracker_id x) (releasename x) (artist x) (album x) (year x)
     (details x) (download_url x) (create_date x) (size x) (genres x)
     (discogs_release_id x) v (source_infohash x)
     (target_infohash x) (last_updated x) (status x) (exists_redacted x).

Definition set_target_infohash (v : option string) (x : t) : t :=
  mk (id x) (rutracker_id x) (releasename x) (artist x) (album x) (year x)
     (details x) (download_url x) (create_date x) (size x) (genres x)
     (discogs_release_id x) (discogs_release x) (source_infohash x)
     v (last_updated x) (status x) (exists_redacted x).

(** [f"{self.artist} - {self.album} - {self.year}"] *)
Definition search_query (self : t) : string :=
  artist self ++ " - " ++ album self ++ " - " ++ pyben.str_of_Z (year self).

End Torrent.

(** [for torrent in session.query(Torrent).filter(...)]: the rows the
    filter selects are visited in order, each visit may change the
    visited row; the other rows of the session stay as they are.  [S] is
    what the loop carries from one visit to the next (its counters). *)
Fixpoint for_each {S : Type} (selected : Torrent.t -> bool)
    (body : Torrent.t -> S -> M (Torrent.t * S))
    (rows : list Torrent.t) (s : S) : M (list Torrent.t * S) :=
  match rows with
  | [] => ret ([], s)
  | torrent :: rows' =>
      if selected torrent then
        '(torrent', s') <~ body torrent s ;;
        '(rows'', s'') <~ for_each selected body rows' s' ;;
        ret (torrent' :: rows'', s'')
      else
        '(rows'', s'') <~ for_each selected body rows' s ;;
        ret (torrent :: rows'', s'')
  end.

(** The loop over a one-element list holding the first selected row
    ([[session.query(Torrent).filter(...).first()]]). *)
Fixpoint for_first {S : Type} (selected : Torrent.t -> bool)
    (body : Torrent.t -> S -> M (Torrent.t * S))
    (rows : list Torrent.t) (s : S) : M (list Torrent.t * S) :=
  match rows with
  | [] => ret ([], s)
  | torrent :: rows' =>
      if selected torrent then
        '(torrent', s') <~ body torrent s ;;
        ret (torrent' :: rows', s')
      else
        '(rows'', s') <~ for_first selected body rows' s ;;
        ret (torrent :: rows'', s')
  end.

(* ================================================================== *)
(** * swarmchaser/swarmchaser.py: the collaborators' clients *)
(* ================================================================== *)

Module Discogs.

Definition fetch (env : Env) (query : string) : M (list Z) :=
  call (DiscogsSearch query) (discogs_client_search env query).

(** [None] when there is no result, else the id of the first one. *)
Definition parse (results : list Z) : option Z :=
  match results with
  | [] => None
  | id :: _ => Some id
  end.

Definition search (env : Env) (torrent : Torrent.t) : M (option Z) :=
  results <~ fetch env (Torrent.search_query torrent) ;;
  ret (parse results).

Definition release (env : Env) (id : Z) : M json :=
  call (DiscogsRelease id) (discogs_client_release env id).

End Discogs.

Module Redacted.

Definition search (env : Env) (query : string) : M json :=
  call (RedactedSearch query) (redacted_browse env query).

(** [len(results["response"]["results"])] *)
Definition parse_num_torrents (results : json) : result nat :=
  response <- json_getitem results "response" ;;
  found <- json_getitem response "results" ;;
  json_len found.

Definition check_exists (env : Env) (torrent : Torrent.t) : M bool :=
  json <~ search env (Torrent.search_query torrent) ;;
  num_torrents <~ lift (parse_num_torrents json) ;;
  ret (0 <? num_torrents)%nat.

Definition setup_params (env : Env) (release : option json) : M json :=
  lift (album_params env release).

Definition edit_torrent (env : Env) (torrent : Torrent.t) : M string :=
  let torrent_maker :=
    TorrentMaker.mk (Torrent.download_url torrent)
                    (REDACTED_ANNOUNCE_URL env) REDACTED_SOURCE_VALUE true in
  TorrentMaker.create env torrent_maker.

(** [upload]: the parsed body of the tracker's answer. *)
Definition upload (env : Env) (torrent : Torrent.t) : M json :=
  params <~ setup_params env (Torrent.discogs_release torrent) ;;
  let filename := pyben.str_of_Z (Torrent.id torrent) ++ ".torrent" in
  torrent_buffer <~ edit_torrent env torrent ;;
  call (RedactedPost params filename torrent_buffer)
       (redacted_post env params filename torrent_buffer).

End Redacted.

(** [for x in v]: the members of a list, the keys of a dictionary, the
    characters of a string; other values cannot be iterated. *)
Definition json_iter (v : json) : result (list json) :=
  match v with
  | JList l => Ok l
  | JDict d => Ok (map (fun entry => JStr (fst entry)) d)
  | JStr s =>
      Ok (map (fun c => JStr (String c EmptyString)) (list_ascii_of_string s))
  | _ => Raise TypeError
  end.

(** [[f(x) for x in l]]: left to right, the first failure is raised. *)
Fixpoint result_map {A B : Type} (f : A -> result B) (l : list A)
  : result (list B) :=
  match l with
  | [] => Ok []
  | x :: l' =>
      y <- f x ;;
      ys <- result_map f l' ;;
      Ok (y :: ys)
  end.

(** [format_genre] on a value of a release: only text has [strip]. *)
Definition format_genre_value (genre : json) : result string :=
  match genre with
  | JStr s => Ok (utils.format_genre s)
  | _ => Raise AttributeError
  end.

(** The properties of [RedactedAlbumParameters] that read the release;
    [release] is [self.release].  ([setup_params], which also formats
    the description, stays with the environment as [album_params].) *)
Module RedactedAlbumParameters.

(** [[artist["name"] for artist in self.release["artists"]]] *)
Definition artists (release : json) : result (list json) :=
  found <- json_getitem release "artists" ;;
  members <- json_iter found ;;
  result_map (fun artist => json_getitem artist "name") members.

(** [[1 for artist in self.release["artists"]]] *)
Definition importance (release : json) : result (list Z) :=
  found <- json_getitem release "artists" ;;
  members <- json_iter found ;;
  Ok (map (fun _ => 1%Z) members).

(** [",".join(map(format_genre, self.release["genres"]))] *)
Definition tags (release : json) : result string :=
  found <- json_getitem release "genres" ;;
  members <- json_iter found ;;
  formatted <- result_map format_genre_value members ;;
  Ok (String.concat "," formatted).

(** One of the two loops of [image]: the uri of the first image of the
    given type, [None] when the loop ends without returning. *)
Fixpoint first_image (type : string) (images : list json)
  : result (option json) :=
  match images with
  | [] => Ok None
  | image :: images' =>
      t <- json_getitem image "type" ;;
      if json_eq_str t type then
        uri <- json_getitem image "uri" ;;
        Ok (Some uri)
      else first_image type images'
  end.

(** [image]: [JNull] is Python's [None]. *)
Definition image (release : json) : result json :=
  found <- json_getitem release "images" ;;
  images <- json_iter found ;;
  primary <- first_image "primary" images ;;
  match primary with
  | Some uri => Ok uri
  | None =>
      secondary <- first_image "secondary" images ;;
      match secondary with
      | Some uri => Ok uri
      | None => Ok JNull
      end
  end.

(** [label.get("catno")], reached with a dictionary only. *)
Definition json_get (v : json) (k : string) : result json :=
  match v with
  | JDict d =>
      match pydict.get k d with
      | Some x => Ok x
      | None => Ok JNull
      end
  | _ => Raise AttributeError
  end.

(** [retrieve_label]: name and catalogue number of the first label,
    [None] when there is no label. *)
Definition retrieve_label (release : json) : result (option (json * json)) :=
  found <- json_getitem release "labels" ;;
  labels <- json_iter found ;;
  match labels with
  | [] => Ok None
  | label :: _ =>
      name <- json_getitem label "name" ;;
      catno <- json_get label "catno" ;;
      Ok (Some (name, catno))
  end.

End RedactedAlbumParameters.

Module qBittorrent.

(** [retrieve_torrents]: the hashes, among those asked for, of the
    torrents the client holds. *)
Definition retrieve_torrents (env : Env) (torrents : list Torrent.t)
  : M (list string) :=
  let hashes := String.concat "|" (map Torrent.source_infohash torrents) in
  call (QbtTorrentsInfo hashes) (qbt_torrents_info env hashes).

(** One turn of the loop of [download]: [true] when the torrent was
    sent to the client ([successful.append]), [false] when it was
    skipped.  The loop carries the number sent and the number skipped. *)
Definition download_one (env : Env) (existing_torrents : list string)
    (category : string) (torrent : Torrent.t) (counts : nat * nat)
  : M (bool * (nat * nat)) :=
  let (successful, skipped) := counts in
  if existsb (String.eqb (Torrent.source_infohash torrent)) existing_torrents
  then ret (false, (successful, skipped + 1)%nat)
  else
    content <~ call (HttpGet (Torrent.download_url torrent))
                    (http_get env (Torrent.download_url torrent)) ;;
    emit (QbtTorrentsAdd content category None (Some 0%Z)) ;;;
    emit (Logging INFO "Sending torrent to qBittorrent: {torrent.releasename}"
                  [JStr (Torrent.releasename torrent)]) ;;;
    ret (true, (successful + 1, skipped)%nat).

End qBittorrent.

Module JackettResult.

Record t : Type := mk {
  id : Z;
  releasename : string;
  artist : string;
  album : string;
  year : Z;
  download_url : string;
  create_date : Z;
  size : Z;
  genres : list string;
  discogs_release_id : option Z
}.

(** [retrieve_infohash]: the torrent file is fetched and its infohash
    computed. *)
Definition retrieve_infohash (env : Env) (self : t) : M string :=
  content <~ call (HttpGet (download_url self)) (http_get env (download_url self)) ;;
  lift (infohash content).

End JackettResult.

(* ================================================================== *)
(** * swarmchaser/models.py: update_eligibility *)
(* ================================================================== *)

Definition is_status (s : TorrentStatus) (torrent : Torrent.t) : bool :=
  TorrentStatus_eqb (Torrent.status torrent) s.

Module models.

(** The body of the loop of [update_eligibility]; the loop carries the
    counters [updated] and [ineligible]. *)
Definition eligibility_body (env : Env) (torrent : Torrent.t)
    (counts : nat * nat) : M (Torrent.t * (nat * nat)) :=
  let (updated, ineligible_count) := counts in
  if negb (is_status tracked torrent) then lift (Raise AssertionError)
  else
    discogs_id <~ Discogs.search env torrent ;;
    match discogs_id with
    | None =>
        let torrent := Torrent.set_status ineligible torrent in
        emit (Logging DEBUG
                "Unable to identify Discogs release. Marking as ineligible: {torrent.releasename}"
                [JStr (Torrent.releasename torrent)]) ;;;
        ret (torrent, (updated, ineligible_count + 1)%nat)
    | Some discogs_id =>
        let torrent := Torrent.set_discogs_release_id (Some discogs_id) torrent in
        release <~ Discogs.release env discogs_id ;;
        artists <~ lift (json_getitem release "artists") ;;
        match artists with
        | JNull => lift (Raise AssertionError)
        | _ =>
            let torrent := Torrent.set_discogs_release (Some release) torrent in
            found <~ Redacted.check_exists env torrent ;;
            let can_upload := negb found in
            if negb can_upload then
              emit (Logging DEBUG
                      "Torrent already exists on Redacted. Marking as ineligible: {torrent.releasename}"
                      [JStr (Torrent.releasename torrent)]) ;;;
              let torrent := Torrent.set_status ineligible torrent in
              ret (torrent, (updated, ineligible_count + 1)%nat)
            else
              let torrent := Torrent.set_status eligible torrent in
              let torrent := Torrent.set_last_updated (now env) torrent in
              ret (torrent, (updated + 1, ineligible_count)%nat)
        end
    end.

(** [update_eligibility]: the rows as committed, when the commit is
    reached. *)
Definition update_eligibility (env : Env) (rows : list Torrent.t)
  : M (list Torrent.t) :=
  '(rows', (updated, ineligible_count)) <~
     for_each (is_status tracked) (eligibility_body env) rows (0, 0)%nat ;;
  emit (Logging INFO
          "Marked ({ineligible}) torrents as ineligible. Updated ({updated}) torrents as eligible to be uploaded."
          [JInt (Z.of_nat ineligible_count); JInt (Z.of_nat updated)]) ;;;
  ret rows'.

(** The primary key the table gives a new row: one more than the
    largest in use (SQLite, [INTEGER PRIMARY KEY]). *)
Definition next_id (rows : list Torrent.t) : Z :=
  1 + fold_right Z.max 0%Z (map Torrent.id rows).

Definition has_rutracker_id (n : Z) (torrent : Torrent.t) : bool :=
  (Torrent.rutracker_id torrent =? n)%Z.

(** The row [insert_torrents] adds for a search result; the columns it
    does not name are empty, among them [genres]. *)
Definition new_row (env : Env) (id : Z) (torrent : JackettResult.t)
    (source_infohash : string) : Torrent.t :=
  Torrent.mk id (JackettResult.id torrent) (JackettResult.releasename torrent)
    (JackettResult.artist torrent) (JackettResult.album torrent)
    (JackettResult.year torrent) None (JackettResult.download_url torrent)
    (JackettResult.create_date torrent) (JackettResult.size torrent) None
    (JackettResult.discogs_release_id torrent) None source_infohash None
    (now env) tracked None.

(** The loop of [insert_torrents] over the rows of its session.  The
    query at the head of each turn flushes the session first, so it
    sees the rows added in earlier turns.  The loop carries the counters
    [added] and [skipped]. *)
Fixpoint insert_loop (env : Env) (torrents : list JackettResult.t)
    (session : list Torrent.t) (counts : nat * nat)
  : M (list Torrent.t * (nat * nat)) :=
  match torrents with
  | [] => ret (session, counts)
  | torrent :: torrents' =>
      let (added, skipped) := counts in
      match find (has_rutracker_id (JackettResult.id torrent)) session with
      | Some _ =>
          emit (Logging DEBUG "Torrent already exists: {torrent.releasename}"
                        [JStr (JackettResult.releasename torrent)]) ;;;
          insert_loop env torrents' session (added, skipped + 1)%nat
      | None =>
          emit (Logging INFO
                  "Adding new candidate torrent to track: {torrent.releasename}"
                  [JStr (JackettResult.releasename torrent)]) ;;;
          source_infohash <~ JackettResult.retrieve_infohash env torrent ;;
          let row := new_row env (next_id session) torrent source_infohash in
          insert_loop env torrents' (session ++ [row])%list
                      (added + 1, skipped)%nat
      end
  end.

(** [insert_torrents]: the rows as committed, when the commit is
    reached. *)
Definition insert_torrents (env : Env) (torrents : list JackettResult.t)
    (rows : list Torrent.t) : M (list Torrent.t) :=
  '(rows', (added, skipped)) <~ insert_loop env torrents rows (0, 0)%nat ;;
  emit (Logging INFO "Added ({added}) new torrents. Skipped ({skipped}) torrents."
                [JInt (Z.of_nat added); JInt (Z.of_nat skipped)]) ;;;
  ret rows'.

End models.

(* ================================================================== *)
(** * cli.py: download and upload *)
(* ================================================================== *)

Module cli.

(** [download].  [qbt.download] returns in [successful] the very
    objects of the session it sent to the client, and the command then
    sets [last_updated] and [status] on each of them; here a row is
    marked in the turn that sent it.  Marking calls nothing outside and
    the session is committed after both loops only, so the rows
    committed and the trace are the same. *)
Definition download_body (env : Env) (existing_torrents : list string)
    (category : string) (torrent : Torrent.t) (counts : nat * nat)
  : M (Torrent.t * (nat * nat)) :=
  '(sent, counts') <~
     qBittorrent.download_one env existing_torrents category torrent counts ;;
  if sent then
    let torrent := Torrent.set_last_updated (now env) torrent in
    let torrent := Torrent.set_status downloaded torrent in
    ret (torrent, counts')
  else ret (torrent, counts').

Definition download (env : Env) (category : string) (rows : list Torrent.t)
  : M (list Torrent.t) :=
  emit QbtLogin ;;;
  let torrents := filter (is_status eligible) rows in
  existing_torrents <~ qBittorrent.retrieve_torrents env torrents ;;
  '(rows', (successful, skipped)) <~
     for_each (is_status eligible)
              (download_body env existing_torrents category) rows (0, 0)%nat ;;
  emit (Logging INFO
          "Sent total of ({len(successful)}) torrents to qBittorrent. Skipped ({skipped}) existing torrents. "
          [JInt (Z.of_nat successful); JInt (Z.of_nat skipped)]) ;;;
  ret rows'.

(** The body of the loop of [upload]. *)
Definition upload_body (env : Env) (torrent : Torrent.t) (_ : unit)
  : M (Torrent.t * unit) :=
  response <~ Redacted.upload env torrent ;;
  status <~ lift (json_getitem response "status") ;;
  if json_eq_str status "success" then
    let torrent := Torrent.set_status uploaded torrent in
    let torrent := Torrent.set_last_updated (now env) torrent in
    r <~ lift (json_getitem response "response") ;;
    torrentid <~ lift (json_getitem r "torrentid") ;;
    r' <~ lift (json_getitem response "response") ;;
    groupid <~ lift (json_getitem r' "groupid") ;;
    emit (Logging INFO
            "New torrent created at: https://redacted.ch/torrents.php?id={groupid}&torrentid={torrentid}"
            [groupid; torrentid]) ;;;
    emit QbtLogin ;;;
    new_torrent <~ Redacted.edit_torrent env torrent ;;
    let bytestring := new_torrent in
    target <~ lift (infohash bytestring) ;;
    let torrent := Torrent.set_target_infohash (Some target) torrent in
    emit (QbtTorrentsAdd new_torrent "swarmchaser" (Some "myupload") None) ;;;
    emit (QbtTorrentsDelete false (Torrent.source_infohash torrent)) ;;;
    emit (Logging INFO "Torrent file added to qBittorrent" []) ;;;
    ret (torrent, tt)
  else
    body <~ lift (json_call_json response) ;;
    emit (Logging WARNING
            "Failed to upload torrent: {torrent.releasename}\n\n\n{response.json()}\n"
            [JStr (Torrent.releasename torrent); body]) ;;;
    ret (torrent, tt).

(** [if id:] *)
Definition truthy (id : option Z) : bool :=
  match id with
  | Some n => negb (n =? 0)%Z
  | None => false
  end.

Definition has_id (n : Z) (torrent : Torrent.t) : bool :=
  (Torrent.id torrent =? n)%Z.

(** [upload]; the options [limit] and [verify] are read and not used. *)
Definition upload (env : Env) (limit : option Z) (verify : bool)
    (id : option Z) (rows : list Torrent.t) : M (list Torrent.t) :=
  match id with
  | Some n =>
      if truthy id then
        match find (has_id n) rows with
        | None => lift (Raise AttributeError)
        | Some first =>
            emit (Echo (Torrent.download_url first)) ;;;
            '(rows', _) <~ for_first (has_id n) (upload_body env) rows tt ;;
            ret rows'
        end
      else
        '(rows', _) <~ for_each (is_status downloaded) (upload_body env) rows tt ;;
        ret rows'
  | None =>
      '(rows', _) <~ for_each (is_status downloaded) (upload_body env) rows tt ;;
      ret rows'
  end.

(** The assignments of [set] to the record found. *)
Definition set_body (env : Env) (discog : Z) (torrent : Torrent.t) (_ : unit)
  : M (Torrent.t * unit) :=
  let torrent := Torrent.set_discogs_release_id (Some discog) torrent in
  release <~ Discogs.release env discog ;;
  let torrent := Torrent.set_discogs_release (Some release) torrent in
  ret (torrent, tt).

(** [set]: a missing record is [None], and assigning to an attribute of
    [None] raises before Discogs is asked. *)
Definition set (env : Env) (id discog : Z) (rows : list Torrent.t)
  : M (list Torrent.t) :=
  match find (has_id id) rows with
  | None => lift (Raise AttributeError)
  | Some _ =>
      '(rows', _) <~ for_first (has_id id) (set_body env discog) rows tt ;;
      ret rows'
  end.

End cli.

(* ================================================================== *)
(** * Runs of the pipeline *)
(* ================================================================== *)

(** The table of records as stored, and everything done to the outside
    so far. *)
Record World : Type := mkWorld {
  db : list Torrent.t;
  trace : list event
}.

(** A command works on the rows of its session; they reach the table
    when [session.commit()] is reached, that is, when nothing was
    raised on the way. *)
Definition run (command : list Torrent.t -> M (list Torrent.t)) (w : World)
  : World :=
  match command (db w) (trace w) with
  | (tr, Ok rows) => mkWorld rows tr
  | (tr, Raise _) => mkWorld (db w) tr
  end.




(* ================================================================== *)
(** * Notions used in the statements *)
(* ================================================================== *)

(** Byte-wise order on keys, strict and large. *)
Definition key_lt (a b : string) : Prop := String.ltb a b = true.

Definition key_le (a b : string) : Prop := String.leb a b = true.

(** The info dictionary [setup_torrent] builds from the decoded one. *)
Definition rewritten_info (self : TorrentMaker.t) (info : pydict.dict bvalue)
  : pydict.dict bvalue :=
  TorrentMaker.order_info
    (pydict.set "source" (BStr (TorrentMaker.source self))
       (pydict.set "private" (BInt (Z.b2z (TorrentMaker.private self))) info)).

(** The document [setup_torrent] returns. *)
Definition rewritten (self : TorrentMaker.t) (now : Z)
    (info : pydict.dict bvalue) : bvalue :=
  BDict [("announce", BStr (TorrentMaker.announce self));
         ("creation date", BInt now);
         ("info", BDict (rewritten_info self info))].

(** The entries of a dictionary as the encoder writes them: key, value,
    key, value, in the order the dictionary holds them. *)
Fixpoint emitted (d : pydict.dict bvalue) : string :=
  match d with
  | [] => EmptyString
  | (key, item) :: d' =>
      pyben.bencode_str key ++ pyben.benencode item ++ emitted d'
  end.

(** A string that does not begin with a decimal digit. *)
Definition no_leading_digit (s : string) : Prop :=
  match s with
  | EmptyString => True
  | String c _ => pystr.isdigit c = false
  end.

(** The items of a list as the encoder writes them. *)
Fixpoint emitted_list (l : list bvalue) : string :=
  match l with
  | [] => EmptyString
  | x :: l' => pyben.benencode x ++ emitted_list l'
  end.

(** Values as [bendecode] builds them: no key twice in a dictionary. *)
#[warnings="-register-all"]
Inductive well_formed : bvalue -> Prop :=
| wf_int (n : Z) : well_formed (BInt n)
| wf_str (s : string) : well_formed (BStr s)
| wf_list (l : list bvalue) : Forall well_formed l -> well_formed (BList l)
| wf_dict (d : pydict.dict bvalue) :
    NoDup (pydict.keys d) ->
    Forall (fun entry => well_formed (snd entry)) d ->
    well_formed (BDict d).

(** The nesting of calls [decode] needs to read back a value. *)
Fixpoint need (v : bvalue) : nat :=
  match v with
  | BInt _ | BStr _ => 1
  | BList l =>
      S ((fix go (l : list bvalue) : nat :=
            match l with
            | [] => 1
            | x :: l' => S (Nat.max (need x) (go l'))
            end) l)
  | BDict d =>
      S ((fix go (d : list (string * bvalue)) : nat :=
            match d with
            | [] => 1
            | (_, x) :: d' => S (Nat.max (need x) (go d'))
            end) d)
  end.

Fixpoint need_list (l : list bvalue) : nat :=
  match l with
  | [] => 1
  | x :: l' => S (Nat.max (need x) (need_list l'))
  end.

Fixpoint need_dict (d : pydict.dict bvalue) : nat :=
  match d with
  | [] => 1
  | (_, x) :: d' => S (Nat.max (need x) (need_dict d'))
  end.

(** Induction on values, with the hypothesis for every member of a
    list and every value of a dictionary. *)
Fixpoint bvalue_induction (P : bvalue -> Prop)
    (Hint : forall n, P (BInt n)) (Hstr : forall s, P (BStr s))
    (Hlist : forall l, Forall P l -> P (BList l))
    (Hdict : forall d, Forall (fun entry => P (snd entry)) d -> P (BDict d))
    (v : bvalue) : P v :=
  match v with
  | BInt n => Hint n
  | BStr s => Hstr s
  | BList l =>
      Hlist l
        ((fix go (l : list bvalue) : Forall P l :=
            match l with
            | [] => Forall_nil P
            | x :: l' =>
                Forall_cons x (bvalue_induction P Hint Hstr Hlist Hdict x)
                            (go l')
            end) l)
  | BDict d =>
      Hdict d
        ((fix go (d : list (string * bvalue))
            : Forall (fun entry => P (snd entry)) d :=
            match d with
            | [] => Forall_nil _
            | (k, x) :: d' =>
                Forall_cons (k, x)
                  (bvalue_induction P Hint Hstr Hlist Hdict x) (go d')
            end) d)
  end.

(** What [decode] asks of a value to give it back. *)
Definition reads_back (x : bvalue) : Prop :=
  well_formed x ->
  forall fuel rest, (need x <= fuel)%nat ->
    pyben.decode fuel (pyben.benencode x ++ rest) = Some (x, rest).

Definition example_info : pydict.dict bvalue :=
  [("name", BStr "x"); ("piece length", BInt 16384);
   ("pieces", BStr "aaaaaaaaaaaaaaaaaaaa"); ("length", BInt 100)].

Definition example_torrent : bvalue :=
  BDict [("announce", BStr "http://old"); ("comment", BStr "hi");
         ("info", BDict example_info)].

Definition example_metainfo : string :=
  "d8:announce10:http://old7:comment2:hi4:infod4:name1:x12:piece lengthi16384e6:pieces20:aaaaaaaaaaaaaaaaaaaa6:lengthi100eee".

(** The same document with the entries of both dictionaries in another
    order and without the comment. *)
Definition example_metainfo' : string :=
  "d4:infod6:lengthi100e6:pieces20:aaaaaaaaaaaaaaaaaaaa4:name1:x12:piece lengthi16384ee8:announce10:http://olde".

Definition example_info' : pydict.dict bvalue :=
  [("length", BInt 100); ("pieces", BStr "aaaaaaaaaaaaaaaaaaaa");
   ("name", BStr "x"); ("piece length", BInt 16384)].

Definition example_torrent' : bvalue :=
  BDict [("info", BDict example_info'); ("announce", BStr "http://old")].


Definition example_release : json :=
  JDict [("title", JStr "Music Has the Right to Children");
         ("year", JInt 1998);
         ("artists", JList [JDict [("name", JStr "Boards of Canada")]])].

Definition no_results : json :=
  JDict [("status", JStr "success");
         ("response", JDict [("results", JList [])])].

Definition one_result : json :=
  JDict [("status", JStr "success");
         ("response", JDict [("results", JList [JDict [("groupId", JInt 5)]])])].

Definition success_response : json :=
  JDict [("status", JStr "success");
         ("response", JDict [("groupid", JInt 3); ("torrentid", JInt 7)])].

Definition failure_response : json :=
  JDict [("status", JStr "failure"); ("error", JStr "bad request")].

(** Every collaborator answers; Discogs has one match, the tracker has
    no such release yet and accepts uploads; the client holds nothing. *)
Definition example_env : Env :=
  mkEnv 1700000000
        (fun _ => Ok example_metainfo)
        (fun _ => Ok [42%Z])
        (fun _ => Ok example_release)
        (fun _ => Ok no_results)
        (fun _ _ _ => Ok success_response)
        (fun _ => Ok (JDict [("title", JStr "Music Has the Right to Children")]))
        (fun _ => Ok [])
        "http://new".


(** As [example_env], but the tracker already has the release. *)
Definition example_env_duplicate : Env :=
  mkEnv 1700000000 (http_get example_env) (discogs_client_search example_env)
        (discogs_client_release example_env) (fun _ => Ok one_result)
        (redacted_post example_env) (album_params example_env)
        (qbt_torrents_info example_env) "http://new".

(** As [example_env], but the tracker refuses the file of record 1. *)
Definition example_env_refusing : Env :=
  mkEnv 1700000000 (http_get example_env) (discogs_client_search example_env)
        (discogs_client_release example_env) (redacted_browse example_env)
        (fun _ filename _ =>
           if String.eqb filename "1.torrent" then Ok failure_response
           else Ok success_response)
        (album_params example_env)
        (qbt_torrents_info example_env) "http://new".

Definition example_record (id : Z) (status : TorrentStatus) : Torrent.t :=
  Torrent.mk id (100 + id)
    "(Electronic) [FLAC] Boards of Canada - Music Has the Right to Children - 1998, WEB"
    "Boards of Canada" "Music Has the Right to Children" 1998 None
    "http://jackett/dl/1" 1600000000 123456 None None None
    "e1224b4d4ea1cc3ee6a5a1740af174df350141b0" None 1600000000 status None.



(** The record with the matched metadata stored. *)
Definition with_match (id : Z) (release : json) (torrent : Torrent.t)
  : Torrent.t :=
  Torrent.set_discogs_release (Some release)
    (Torrent.set_discogs_release_id (Some id) torrent).

(** The maker [Redacted.edit_torrent] sets up for a record. *)
Definition maker_of (env : Env) (torrent : Torrent.t) : TorrentMaker.t :=
  TorrentMaker.mk (Torrent.download_url torrent) (REDACTED_ANNOUNCE_URL env)
                  REDACTED_SOURCE_VALUE true.

Definition upload_filename (torrent : Torrent.t) : string :=
  pyben.str_of_Z (Torrent.id torrent) ++ ".torrent".


Definition log_created (groupid torrentid : json) : event :=
  Logging INFO
    "New torrent created at: https://redacted.ch/torrents.php?id={groupid}&torrentid={torrentid}"
    [groupid; torrentid].








(** Every character of [s] is in the class [p]. *)
Fixpoint all_chars (p : ascii -> bool) (s : string) : bool :=
  match s with
  | EmptyString => true
  | String c s' => p c && all_chars p s'
  end.

(** The number of occurrences of [c] in [s]. *)
Fixpoint count_char (c : ascii) (s : string) : nat :=
  match s with
  | EmptyString => 0
  | String d s' => (if Ascii.eqb d c then 1 else 0) + count_char c s'
  end.

(** What a character of a tag is: neither a space nor a capital. *)
Definition tag_char (c : ascii) : bool :=
  negb (Ascii.eqb c " ") && negb (pystr.isupper c).

(** A title with the parts the pattern of [parse_releasename] names. *)
Definition releasename_of (genre format artist album year rest : string)
  : string :=
  "(" ++ genre ++ ") [" ++ format ++ "] " ++ artist ++ " - " ++ album
      ++ " - " ++ year ++ ", " ++ rest.

(** [image["type"] == type], for an image that has a type. *)
Definition has_type (type : string) (image : json) : bool :=
  match json_getitem image "type" with
  | Ok t => json_eq_str t type
  | Raise _ => false
  end.

Definition example_images : json :=
  JList [JDict [("type", JStr "secondary"); ("uri", JStr "http://img/2")];
         JDict [("type", JStr "primary"); ("uri", JStr "http://img/1")];
         JDict [("type", JStr "primary"); ("uri", JStr "http://img/3")]].

Definition example_album : json :=
  JDict [("title", JStr "Music Has the Right to Children");
         ("artists", JList [JDict [("name", JStr "Boards of Canada")];
                            JDict [("name", JStr "Guest"); ("role", JStr "ft")]]);
         ("genres", JList [JStr "Electronic"; JStr "Folk, World, & Country";
                           JStr "Hip Hop"]);
         ("images", example_images)].



(** The number of rows in a status. *)
Definition count_status (s : TorrentStatus) (rows : list Torrent.t) : nat :=
  List.length (filter (is_status s) rows).

(** The summary [update_eligibility] logs. *)
Definition log_refreshed (ineligible_count updated : nat) : event :=
  Logging INFO
    "Marked ({ineligible}) torrents as ineligible. Updated ({updated}) torrents as eligible to be uploaded."
    [JInt (Z.of_nat ineligible_count); JInt (Z.of_nat updated)].

(** What [download] does to a row, given the hashes the client holds. *)
Definition downloaded_unless_held (env : Env) (existing_torrents : list string)
    (torrent : Torrent.t) : Torrent.t :=
  if is_status eligible torrent
     && negb (existsb (String.eqb (Torrent.source_infohash torrent))
                      existing_torrents)
  then Torrent.set_status downloaded
         (Torrent.set_last_updated (now env) torrent)
  else torrent.

(** The first row in the class [p] changed by [f]. *)
Fixpoint update_first (p : Torrent.t -> bool) (f : Torrent.t -> Torrent.t)
    (rows : list Torrent.t) : list Torrent.t :=
  match rows with
  | [] => []
  | t :: rows' => if p t then f t :: rows' else t :: update_first p f rows'
  end.

(** What a committed [upload] without [--id] does to a row. *)
Definition published (env : Env) (t t' : Torrent.t) : Prop :=
  if is_status downloaded t
  then exists target,
         t' = Torrent.set_target_infohash (Some target)
                (Torrent.set_last_updated (now env)
                   (Torrent.set_status uploaded t))
         /\ String.length target = 40%nat
  else t' = t.

(** As [example_env], but the client already holds the example torrent. *)
Definition example_env_held : Env :=
  mkEnv 1700000000 (http_get example_env) (discogs_client_search example_env)
        (discogs_client_release example_env) (redacted_browse example_env)
        (redacted_post example_env) (album_params example_env)
        (fun _ => Ok ["e1224b4d4ea1cc3ee6a5a1740af174df350141b0"])
        "http://new".

(** A record whose torrent file the client does not hold. *)
Definition example_record_other : Torrent.t :=
  Torrent.mk 3 103 "(Rock) [FLAC] A - B - 2001, WEB" "A" "B" 2001 None
    "http://jackett/dl/3" 1600000000 1234 None None None
    "0000000000000000000000000000000000000000" None 1600000000 eligible None.

(** The lines [insert_torrents] logs. *)
Definition log_exists (torrent : JackettResult.t) : event :=
  Logging DEBUG "Torrent already exists: {torrent.releasename}"
          [JStr (JackettResult.releasename torrent)].

Definition log_inserted (added skipped : nat) : event :=
  Logging INFO "Added ({added}) new torrents. Skipped ({skipped}) torrents."
          [JInt (Z.of_nat added); JInt (Z.of_nat skipped)].

(** A row as [insert_torrents] adds them for one of [torrents]. *)
Definition fresh_row (env : Env) (torrents : list JackettResult.t)
    (row : Torrent.t) : Prop :=
  Torrent.status row = tracked
  /\ Torrent.last_updated row = now env
  /\ Torrent.discogs_release row = None
  /\ Torrent.target_infohash row = None
  /\ String.length (Torrent.source_infohash row) = 40%nat
  /\ exists torrent,
       In torrent torrents
       /\ Torrent.rutracker_id row = JackettResult.id torrent
       /\ Torrent.releasename row = JackettResult.releasename torrent
       /\ Torrent.download_url row = JackettResult.download_url torrent.

Definition example_result (id : Z) : JackettResult.t :=
  JackettResult.mk id
    "(Electronic) [FLAC] Boards of Canada - Music Has the Right to Children - 1998, WEB"
    "Boards of Canada" "Music Has the Right to Children" 1998
    "http://jackett/dl/1" 1600000000 123456 ["electronic"] None.

(* ================================================================== *)
(** * The order on keys *)
(* ================================================================== *)

Lemma ascii_compare_refl (c : ascii) : Ascii.compare c c = Eq.
Proof. unfold Ascii.compare. apply N.compare_refl. Qed.

Lemma ascii_compare_lt_trans (a b c : ascii) :
  Ascii.compare a b = Lt -> Ascii.compare b c = Lt -> Ascii.compare a c = Lt.
Proof.
  unfold Ascii.compare. rewrite !N.compare_lt_iff. apply N.lt_trans.
Qed.

Lemma string_compare_lt_trans (a : string) :
  forall b c, String.compare a b = Lt -> String.compare b c = Lt ->
              String.compare a c = Lt.
Proof.
  induction a as [|x a IH]; intros [|y b] [|z c]; simpl; try congruence.
  destruct (Ascii.compare x y) eqn:Hxy; try discriminate;
    destruct (Ascii.compare y z) eqn:Hyz; try discriminate; intros H1 H2.
  - apply Ascii.compare_eq_iff in Hxy, Hyz. subst.
    rewrite ascii_compare_refl. eauto.
  - apply Ascii.compare_eq_iff in Hxy. subst. now rewrite Hyz.
  - apply Ascii.compare_eq_iff in Hyz. subst. now rewrite Hxy.
  - now rewrite (ascii_compare_lt_trans _ _ _ Hxy Hyz).
Qed.

Lemma string_compare_refl (a : string) : String.compare a a = Eq.
Proof.
  induction a as [|x a IH]; simpl; [reflexivity|].
  now rewrite ascii_compare_refl.
Qed.

Lemma key_le_lt_eq (a b : string) : key_le a b <-> key_lt a b \/ a = b.
Proof.
  unfold key_le, key_lt, String.leb, String.ltb. split.
  - destruct (String.compare a b) eqn:H; intros E; try discriminate.
    + right. now apply String.compare_eq_iff.
    + now left.
  - intros [H | ->].
    + now destruct (String.compare a b).
    + now rewrite string_compare_refl.
Qed.

Lemma key_lt_trans (a b c : string) : key_lt a b -> key_lt b c -> key_lt a c.
Proof.
  unfold key_lt, String.ltb. intros H1 H2.
  destruct (String.compare a b) eqn:Hab; try discriminate.
  destruct (String.compare b c) eqn:Hbc; try discriminate.
  now rewrite (string_compare_lt_trans _ _ _ Hab Hbc).
Qed.

Lemma key_lt_irrefl (a : string) : ~ key_lt a a.
Proof. unfold key_lt, String.ltb. now rewrite string_compare_refl. Qed.

Lemma key_le_trans (a b c : string) : key_le a b -> key_le b c -> key_le a c.
Proof.
  rewrite !key_le_lt_eq. intros [H1 | ->] [H2 | ->]; auto.
  left. eapply key_lt_trans; eauto.
Qed.

Lemma leb_transitive : Transitive (fun a b => is_true (StringOrder.leb a b)).
Proof. intros a b c. apply key_le_trans. Qed.

Lemma sorted_strongly (l : list string) : StronglySorted key_le (sorted l).
Proof. apply (StringSort.StronglySorted_sort l leb_transitive). Qed.

Lemma sorted_In (l : list string) (k : string) : In k (sorted l) <-> In k l.
Proof.
  split; intros H.
  - eapply Permutation_in; [apply Permutation_sym, StringSort.Permuted_sort | exact H].
  - eapply Permutation_in; [apply StringSort.Permuted_sort | exact H].
Qed.

(* ================================================================== *)
(** * Dictionaries *)
(* ================================================================== *)

Section Dict.

Context {V : Type}.
Implicit Types (d : pydict.dict V) (k : string) (v : V).


Lemma get_set k k' v d :
  pydict.get k (pydict.set k' v d)
  = if String.eqb k' k then Some v else pydict.get k d.
Proof.
  induction d as [|[k0 v0] d IH]; simpl.
  - reflexivity.
  - destruct (String.eqb k0 k') eqn:E0; simpl.
    + apply String.eqb_eq in E0. subst k0.
      now destruct (String.eqb k' k).
    + rewrite IH. destruct (String.eqb k0 k) eqn:E1; [|reflexivity].
      apply String.eqb_eq in E1. subst k0.
      now rewrite String.eqb_sym, E0.
Qed.

Lemma get_set_same k v d : pydict.get k (pydict.set k v d) = Some v.
Proof. now rewrite get_set, String.eqb_refl. Qed.

Lemma get_set_other k k' v d :
  k' <> k -> pydict.get k (pydict.set k' v d) = pydict.get k d.
Proof.
  intros H. rewrite get_set.
  destruct (String.eqb_spec k' k); [contradiction | reflexivity].
Qed.

Lemma get_None_keys k d : pydict.get k d = None <-> ~ In k (pydict.keys d).
Proof.
  induction d as [|[k0 v0] d IH]; simpl.
  - tauto.
  - destruct (String.eqb_spec k0 k) as [-> | Hne].
    + split; [discriminate | intros H; exfalso; apply H; now left].
    + rewrite IH. tauto.
Qed.

Lemma get_Some_keys k v d : pydict.get k d = Some v -> In k (pydict.keys d).
Proof.
  intros H. destruct (in_dec string_dec k (pydict.keys d)) as [Hin | Hout].
  - exact Hin.
  - apply get_None_keys in Hout. congruence.
Qed.

Lemma keys_set k v d :
  pydict.keys (pydict.set k v d)
  = match pydict.get k d with
    | Some _ => pydict.keys d
    | None => (pydict.keys d ++ [k])%list
    end.
Proof.
  unfold pydict.keys. induction d as [|[k0 v0] d IH]; simpl.
  - reflexivity.
  - destruct (String.eqb k0 k) eqn:E; simpl.
    + reflexivity.
    + rewrite IH. now destruct (pydict.get k d).
Qed.

End Dict.

Lemma strongly_sorted_snoc (l : list string) (k : string) :
  StronglySorted key_lt l -> (forall a, In a l -> key_lt a k) ->
  StronglySorted key_lt (l ++ [k])%list.
Proof.
  induction 1 as [|a l Hl IH Ha]; intros Hk; simpl.
  - constructor; constructor.
  - constructor.
    + apply IH. intros b Hb. apply Hk. now right.
    + apply Forall_app. split; [exact Ha|].
      constructor; [|constructor]. apply Hk. now left.
Qed.


(* ================================================================== *)
(** * The ordering loop of setup_torrent *)
(* ================================================================== *)

Section OrderInfo.

Variable info : pydict.dict bvalue.

Lemma order_loop_get (ks : list string) :
  forall (acc : pydict.dict bvalue) (k : string),
    pydict.get k (fold_left (TorrentMaker.order_step info) ks acc)
    = match (if existsb (String.eqb k) ks then pydict.get k info else None) with
      | Some v => Some v
      | None => pydict.get k acc
      end.
Proof.
  induction ks as [|k0 ks IH]; intros acc k; simpl.
  - reflexivity.
  - rewrite IH. unfold TorrentMaker.order_step.
    destruct (String.eqb_spec k k0) as [-> | Hne]; simpl.
    + destruct (existsb (String.eqb k0) ks).
      * destruct (pydict.get k0 info) eqn:G; [reflexivity|].
        reflexivity.
      * destruct (pydict.get k0 info) eqn:G; [|reflexivity].
        now rewrite get_set_same.
    + destruct (if existsb (String.eqb k) ks then pydict.get k info else None);
        [reflexivity|].
      destruct (pydict.get k0 info); [|reflexivity].
      apply get_set_other. congruence.
Qed.

Lemma order_loop_sorted (ks : list string) :
  forall acc : pydict.dict bvalue,
    StronglySorted key_le ks ->
    StronglySorted key_lt (pydict.keys acc) ->
    (forall a k, In a (pydict.keys acc) -> In k ks -> key_le a k) ->
    StronglySorted key_lt (pydict.keys (fold_left (TorrentMaker.order_step info) ks acc)).
Proof.
  induction ks as [|k0 ks IH]; intros acc Hks Hacc Hle; simpl.
  - exact Hacc.
  - apply StronglySorted_inv in Hks. destruct Hks as [Hks Hk0].
    rewrite Forall_forall in Hk0.
    apply IH; [exact Hks | |].
    + unfold TorrentMaker.order_step. destruct (pydict.get k0 info); [|exact Hacc].
      rewrite keys_set. destruct (pydict.get k0 acc) eqn:G; [exact Hacc|].
      apply strongly_sorted_snoc; [exact Hacc|].
      intros a Ha. destruct (proj1 (key_le_lt_eq a k0)) as [Hlt | ->].
      * apply Hle; [exact Ha | now left].
      * exact Hlt.
      * apply get_None_keys in G. contradiction.
    + intros a k Ha Hk. unfold TorrentMaker.order_step in Ha.
      destruct (pydict.get k0 info).
      * rewrite keys_set in Ha. destruct (pydict.get k0 acc).
        -- apply Hle; [exact Ha | now right].
        -- apply in_app_or in Ha. destruct Ha as [Ha | [<- | []]].
           ++ apply Hle; [exact Ha | now right].
           ++ apply Hk0, Hk.
      * apply Hle; [exact Ha | now right].
Qed.

Lemma order_info_get (k : string) :
  pydict.get k (TorrentMaker.order_info info) = pydict.get k info.
Proof.
  unfold TorrentMaker.order_info. rewrite order_loop_get. simpl.
  destruct (existsb (String.eqb k) (sorted (pydict.keys info))) eqn:E.
  - now destruct (pydict.get k info).
  - destruct (pydict.get k info) eqn:G; [|reflexivity].
    apply get_Some_keys in G. apply sorted_In in G.
    assert (existsb (String.eqb k) (sorted (pydict.keys info)) = true).
    { apply existsb_exists. exists k. split; [exact G | apply String.eqb_refl]. }
    congruence.
Qed.

Lemma order_info_sorted :
  StronglySorted key_lt (pydict.keys (TorrentMaker.order_info info)).
Proof.
  unfold TorrentMaker.order_info. apply order_loop_sorted.
  - apply sorted_strongly.
  - constructor.
  - intros a k [].
Qed.

End OrderInfo.


Lemma benencode_dict (d : pydict.dict bvalue) :
  pyben.benencode (BDict d) = "d" ++ emitted d ++ "e".
Proof. reflexivity. Qed.

(* ================================================================== *)
(** * Decimal text *)
(* ================================================================== *)

Lemma append_assoc (a b c : string) : (a ++ b) ++ c = a ++ (b ++ c).
Proof. induction a as [|x a IH]; simpl; [reflexivity | now rewrite IH]. Qed.

Lemma append_nil_r (a : string) : a ++ EmptyString = a.
Proof. induction a as [|x a IH]; simpl; [reflexivity | now rewrite IH]. Qed.

Lemma length_append (a b : string) :
  String.length (a ++ b) = (String.length a + String.length b)%nat.
Proof. induction a as [|x a IH]; simpl; [reflexivity | now rewrite IH]. Qed.

Lemma int_digits_uint_acc (d : Decimal.uint) :
  forall p : positive,
    pystr.int_digits (Zpos p) (NilEmpty.string_of_uint d)
    = Zpos (Pos.of_uint_acc d p).
Proof.
  induction d; intros p;
    cbn [NilEmpty.string_of_uint Pos.of_uint_acc pystr.int_digits];
    try reflexivity; rewrite <- IHd; f_equal;
    match goal with
    | |- context [Z.of_nat ?n] =>
        let v := eval vm_compute in (Z.of_nat n) in
        change (Z.of_nat n) with v
    end; lia.
Qed.

Lemma int_digits_uint (d : Decimal.uint) :
  pystr.int (NilEmpty.string_of_uint d) = Z.of_N (Pos.of_uint d).
Proof.
  unfold pystr.int. induction d;
    cbn [NilEmpty.string_of_uint Pos.of_uint pystr.int_digits];
    try reflexivity; try exact IHd;
    match goal with
    | |- context [Z.of_nat ?n] =>
        let v := eval vm_compute in (Z.of_nat n) in
        change (Z.of_nat n) with v
    end; apply (int_digits_uint_acc d).
Qed.

Lemma span_digits_uint (d : Decimal.uint) (rest : string) :
  no_leading_digit rest ->
  pyben.span_digits (NilEmpty.string_of_uint d ++ rest)
  = (NilEmpty.string_of_uint d, rest).
Proof.
  intros Hrest. induction d; simpl; try (rewrite IHd; reflexivity).
  destruct rest as [|c rest]; simpl; [reflexivity|].
  simpl in Hrest. now rewrite Hrest.
Qed.

Lemma string_of_uint_nonempty (d : Decimal.uint) :
  d <> Decimal.Nil ->
  exists c s, NilEmpty.string_of_uint d = String c s /\ pystr.isdigit c = true.
Proof. destruct d; intros H; try congruence; simpl; eauto. Qed.

(** The decimal text of a natural number: digits, at least one, and
    read back as the number. *)
Lemma str_of_Z_nonneg (n : Z) :
  (0 <= n)%Z ->
  exists d, pyben.str_of_Z n = NilEmpty.string_of_uint d
            /\ d <> Decimal.Nil /\ Z.of_N (Pos.of_uint d) = n.
Proof.
  intros Hn. destruct n as [|p|p]; [| |lia].
  - exists (Decimal.D0 Decimal.Nil). repeat split. discriminate.
  - exists (Pos.to_uint p). repeat split.
    + apply Unsigned.to_uint_nonnil.
    + now rewrite Unsigned.of_to.
Qed.

Lemma str_of_Z_neg (p : positive) :
  pyben.str_of_Z (Zneg p)
  = String "-" (NilEmpty.string_of_uint (Pos.to_uint p)).
Proof. reflexivity. Qed.

(* ================================================================== *)
(** * The codec reads back what it wrote *)
(* ================================================================== *)

Lemma decode_unfold (fuel : nat) (c : ascii) (s : string) :
  pyben.decode (S fuel) (String c s)
  = if Ascii.eqb c "i" then pyben.bendecode_int s
    else if Ascii.eqb c "l" then pyben.decode_list fuel s []
    else if Ascii.eqb c "d" then pyben.decode_dict fuel s []
    else if pystr.isdigit c then
           match pyben.bendecode_str (String c s) with
           | Some (t, rest) => Some (BStr t, rest)
           | None => None
           end
         else None.
Proof. destruct c as [[] [] [] [] [] [] [] []]; reflexivity. Qed.

Lemma decode_list_unfold (fuel : nat) (c : ascii) (s : string)
    (lst : list bvalue) :
  pyben.decode_list (S fuel) (String c s) lst
  = if Ascii.eqb c "e" then Some (BList lst, s)
    else match pyben.decode fuel (String c s) with
         | Some (item, rest) => pyben.decode_list fuel rest (lst ++ [item])%list
         | None => None
         end.
Proof. destruct c as [[] [] [] [] [] [] [] []]; reflexivity. Qed.

Lemma decode_dict_unfold (fuel : nat) (c : ascii) (s : string)
    (dic : pydict.dict bvalue) :
  pyben.decode_dict (S fuel) (String c s) dic
  = if Ascii.eqb c "e" then Some (BDict dic, s)
    else match pyben.decode fuel (String c s) with
         | Some (BStr key, rest) =>
             match pyben.decode fuel rest with
             | Some (item, rest') =>
                 pyben.decode_dict fuel rest' (pydict.set key item dic)
             | None => None
             end
         | _ => None
         end.
Proof. destruct c as [[] [] [] [] [] [] [] []]; reflexivity. Qed.

Lemma take_append (s rest : string) :
  pyben.take (String.length s) (s ++ rest) = Some (s, rest).
Proof. induction s as [|c s IH]; simpl; [reflexivity | now rewrite IH]. Qed.

Lemma isdigit_not_minus (c : ascii) :
  pystr.isdigit c = true -> Ascii.eqb c "-" = false.
Proof. destruct c as [[] [] [] [] [] [] [] []]; intros H; try reflexivity; discriminate. Qed.

Lemma isdigit_not_letter (c : ascii) :
  pystr.isdigit c = true ->
  Ascii.eqb c "i" = false /\ Ascii.eqb c "l" = false
  /\ Ascii.eqb c "d" = false /\ Ascii.eqb c "e" = false.
Proof.
  destruct c as [[] [] [] [] [] [] [] []]; intros H;
    try discriminate; repeat split.
Qed.

Lemma bendecode_str_encoded (k rest : string) :
  pyben.bendecode_str (pyben.bencode_str k ++ rest) = Some (k, rest).
Proof.
  unfold pyben.bendecode_str, pyben.bencode_str.
  destruct (str_of_Z_nonneg (Z.of_nat (String.length k)) (Nat2Z.is_nonneg _))
    as [d [Hd [Hnil Hval]]].
  rewrite Hd, append_assoc.
  rewrite span_digits_uint by reflexivity.
  destruct (string_of_uint_nonempty d Hnil) as [c [s [Hcs _]]].
  destruct (NilEmpty.string_of_uint d) as [|c' s'] eqn:E; [discriminate|].
  cbn [String.append]. rewrite <- E.
  rewrite int_digits_uint, Hval, Nat2Z.id. apply take_append.
Qed.

Lemma bencode_str_head (k : string) :
  exists c s, pyben.bencode_str k = String c s /\ pystr.isdigit c = true.
Proof.
  unfold pyben.bencode_str.
  destruct (str_of_Z_nonneg (Z.of_nat (String.length k)) (Nat2Z.is_nonneg _))
    as [d [Hd [Hnil _]]].
  destruct (string_of_uint_nonempty d Hnil) as [c [s [Hcs Hc]]].
  rewrite Hd, Hcs. simpl. eauto.
Qed.

Lemma decode_str_encoded (fuel : nat) (k rest : string) :
  pyben.decode (S fuel) (pyben.bencode_str k ++ rest) = Some (BStr k, rest).
Proof.
  destruct (bencode_str_head k) as [c [s [Hcs Hc]]].
  pose proof (bendecode_str_encoded k rest) as H.
  rewrite Hcs in *. cbn [String.append] in *. rewrite decode_unfold.
  destruct (isdigit_not_letter c Hc) as [-> [-> [-> _]]].
  now rewrite Hc, H.
Qed.

Lemma bendecode_int_plain (t : string) (c : ascii) (s : string) :
  t = String c s -> pystr.isdigit c = true ->
  pyben.bendecode_int t
  = match pyben.span_digits t with
    | (EmptyString, _) => None
    | (ds, String "e" rest) => Some (BInt (pystr.int ds), rest)
    | _ => None
    end.
Proof.
  intros -> H. destruct c as [[] [] [] [] [] [] [] []];
    try discriminate; reflexivity.
Qed.

Lemma bendecode_int_encoded (n : Z) (rest : string) :
  pyben.bendecode_int ((pyben.str_of_Z n ++ "e") ++ rest) = Some (BInt n, rest).
Proof.
  rewrite append_assoc. cbn [String.append].
  destruct n as [|p|p].
  - reflexivity.
  - destruct (str_of_Z_nonneg (Zpos p) (Pos2Z.is_nonneg p))
      as [d [Hd [Hnil Hval]]].
    destruct (string_of_uint_nonempty d Hnil) as [c [s [Hcs Hc]]].
    rewrite Hd.
    rewrite (bendecode_int_plain _ c (s ++ String "e" rest));
      [| now rewrite Hcs | exact Hc].
    rewrite span_digits_uint by reflexivity.
    destruct (NilEmpty.string_of_uint d) as [|c' s'] eqn:E; [discriminate|].
    rewrite <- E. now rewrite int_digits_uint, Hval.
  - rewrite str_of_Z_neg. cbn [String.append]. unfold pyben.bendecode_int.
    destruct (string_of_uint_nonempty (Pos.to_uint p)
                (Unsigned.to_uint_nonnil p)) as [c [s [Hcs Hc]]].
    rewrite span_digits_uint by reflexivity.
    destruct (NilEmpty.string_of_uint (Pos.to_uint p)) as [|c' s'] eqn:E;
      [discriminate|].
    rewrite <- E. rewrite int_digits_uint. now rewrite Unsigned.of_to.
Qed.

(** What an encoded value begins with: never the end marker. *)
Lemma benencode_head (v : bvalue) :
  exists c s, pyben.benencode v = String c s /\ Ascii.eqb c "e" = false.
Proof.
  destruct v as [n | k | l | d].
  - exists "i"%char. eexists. split; reflexivity.
  - destruct (bencode_str_head k) as [c [s [Hcs Hc]]].
    exists c, s. split; [exact Hcs|].
    now destruct (isdigit_not_letter c Hc) as [_ [_ [_ ->]]].
  - exists "l"%char. eexists. split; reflexivity.
  - exists "d"%char. eexists. split; reflexivity.
Qed.

Lemma need_BList (l : list bvalue) : need (BList l) = S (need_list l).
Proof. reflexivity. Qed.

Lemma need_BDict (d : pydict.dict bvalue) : need (BDict d) = S (need_dict d).
Proof. reflexivity. Qed.

Lemma need_pos (v : bvalue) : (1 <= need v)%nat.
Proof. destruct v; simpl; lia. Qed.

Lemma benencode_BList (l : list bvalue) :
  pyben.benencode (BList l) = "l" ++ emitted_list l ++ "e".
Proof. reflexivity. Qed.

Lemma set_fresh {V : Type} (k : string) (v : V) (d : pydict.dict V) :
  ~ In k (pydict.keys d) -> pydict.set k v d = (d ++ [(k, v)])%list.
Proof.
  induction d as [|[k0 v0] d IH]; simpl; intros H; [reflexivity|].
  destruct (String.eqb_spec k0 k) as [-> | _]; [tauto|].
  rewrite IH; [reflexivity | tauto].
Qed.

Lemma decode_list_encoded (l : list bvalue) :
  Forall reads_back l -> Forall well_formed l ->
  forall fuel rest lst, (need_list l <= fuel)%nat ->
    pyben.decode_list fuel (emitted_list l ++ String "e" rest) lst
    = Some (BList (lst ++ l)%list, rest).
Proof.
  induction l as [|x l IH]; intros Hread Hwf fuel rest lst Hfuel.
  - destruct fuel as [|fuel]; [simpl in Hfuel; lia|].
    simpl. now rewrite app_nil_r.
  - inversion Hread as [|? ? Hx Hl]; subst. inversion Hwf as [|? ? Wx Wl]; subst.
    destruct fuel as [|fuel]; [simpl in Hfuel; lia|].
    simpl in Hfuel. cbn [emitted_list]. rewrite append_assoc.
    destruct (benencode_head x) as [c [s [Hcs Hc]]].
    pose proof (Hx Wx fuel (emitted_list l ++ String "e" rest)
                  ltac:(lia)) as Hdec.
    rewrite Hcs in *. cbn [String.append] in *.
    rewrite decode_list_unfold, Hc, Hdec.
    rewrite (IH Hl Wl fuel rest (lst ++ [x])%list ltac:(lia)).
    now rewrite <- app_assoc.
Qed.

Lemma decode_dict_encoded (d : pydict.dict bvalue) :
  Forall (fun entry => reads_back (snd entry)) d ->
  Forall (fun entry => well_formed (snd entry)) d ->
  forall fuel rest dic,
    (need_dict d <= fuel)%nat ->
    NoDup (pydict.keys dic ++ pydict.keys d) ->
    pyben.decode_dict fuel (emitted d ++ String "e" rest) dic
    = Some (BDict (dic ++ d)%list, rest).
Proof.
  induction d as [|[k x] d IH]; intros Hread Hwf fuel rest dic Hfuel Hnodup.
  - destruct fuel as [|fuel]; [simpl in Hfuel; lia|].
    simpl. now rewrite app_nil_r.
  - inversion Hread as [|? ? Hx Hl]; subst. inversion Hwf as [|? ? Wx Wl]; subst.
    simpl in Hx, Wx.
    destruct fuel as [|fuel]; [simpl in Hfuel; lia|].
    simpl in Hfuel. cbn [emitted]. rewrite !append_assoc.
    destruct (bencode_str_head k) as [c [s [Hcs Hc]]].
    pose proof (need_pos x) as Hpos.
    destruct fuel as [|fuel]; [lia|].
    pose proof (decode_str_encoded fuel k
                  (pyben.benencode x ++ emitted d ++ String "e" rest)) as Hkey.
    rewrite Hcs in *. cbn [String.append] in *.
    rewrite decode_dict_unfold.
    destruct (isdigit_not_letter c Hc) as [_ [_ [_ ->]]].
    rewrite Hkey.
    rewrite (Hx Wx (S fuel) (emitted d ++ String "e" rest) ltac:(lia)).
    assert (Hk : ~ In k (pydict.keys dic)).
    { simpl in Hnodup. apply NoDup_remove_2 in Hnodup.
      intros Hin. apply Hnodup. apply in_or_app. now left. }
    rewrite (set_fresh k x dic Hk).
    rewrite (IH Hl Wl (S fuel) rest (dic ++ [(k, x)])%list ltac:(lia)).
    + now rewrite <- app_assoc.
    + unfold pydict.keys in *. rewrite map_app. simpl.
      rewrite <- app_assoc. exact Hnodup.
Qed.

(** Decoding the encoding of a value gives the value back, and what
    followed the encoding. *)
Lemma decode_encoded (v : bvalue) : reads_back v.
Proof.
  induction v as [n | s | l IH | d IH] using bvalue_induction;
    intros Hwf fuel rest Hfuel.
  - destruct fuel as [|fuel]; [simpl in Hfuel; lia|].
    change (pyben.benencode (BInt n)) with ("i" ++ pyben.str_of_Z n ++ "e").
    cbn [String.append]. rewrite decode_unfold. simpl.
    apply bendecode_int_encoded.
  - destruct fuel as [|fuel]; [simpl in Hfuel; lia|].
    apply decode_str_encoded.
  - inversion Hwf as [| | ? Hall |]; subst.
    rewrite need_BList in Hfuel.
    destruct fuel as [|fuel]; [lia|].
    rewrite benencode_BList. cbn [String.append].
    rewrite decode_unfold. simpl. rewrite append_assoc.
    cbn [String.append].
    now rewrite (decode_list_encoded l IH Hall fuel rest [] ltac:(lia)).
  - inversion Hwf as [| | | ? Hnodup Hall]; subst.
    rewrite need_BDict in Hfuel.
    destruct fuel as [|fuel]; [lia|].
    rewrite benencode_dict. cbn [String.append].
    rewrite decode_unfold. simpl. rewrite append_assoc.
    cbn [String.append].
    now rewrite (decode_dict_encoded d IH Hall fuel rest [] ltac:(lia) Hnodup).
Qed.

(** The fuel [bendecode] starts from is enough. *)
Lemma need_length (v : bvalue) :
  (1 <= need v <= String.length (pyben.benencode v))%nat.
Proof.
  induction v as [n | s | l IH | d IH] using bvalue_induction.
  - simpl. rewrite length_append. simpl. lia.
  - destruct (bencode_str_head s) as [c [t [Hct _]]].
    change (pyben.benencode (BStr s)) with (pyben.bencode_str s).
    rewrite Hct. simpl. lia.
  - rewrite need_BList, benencode_BList. cbn [String.append String.length].
    rewrite length_append. simpl.
    assert (need_list l <= String.length (emitted_list l) + 1)%nat; [|lia].
    induction IH as [|x l Hx _ IHl]; simpl; [lia|].
    rewrite length_append. lia.
  - rewrite need_BDict, benencode_dict. cbn [String.append String.length].
    rewrite length_append. simpl.
    assert (need_dict d <= String.length (emitted d) + 1)%nat; [|lia].
    induction IH as [|[k x] d Hx _ IHd]; simpl; [lia|].
    simpl in Hx. rewrite !length_append.
    destruct (bencode_str_head k) as [c [t [Hct _]]]. rewrite Hct. simpl. lia.
Qed.

Lemma bendecode_benencode (v : bvalue) :
  well_formed v ->
  pyben.bendecode (pyben.benencode v)
  = Ok (v, String.length (pyben.benencode v)).
Proof.
  intros Hwf. unfold pyben.bendecode.
  rewrite <- (append_nil_r (pyben.benencode v)) at 2.
  rewrite (decode_encoded v Hwf).
  - simpl. now rewrite Nat.sub_0_r.
  - pose proof (need_length v). lia.
Qed.

(* ================================================================== *)
(** * Decoded values are well formed *)
(* ================================================================== *)

Lemma set_keys_NoDup {V : Type} (k : string) (v : V) (d : pydict.dict V) :
  NoDup (pydict.keys d) -> NoDup (pydict.keys (pydict.set k v d)).
Proof.
  intros H. rewrite keys_set. destruct (pydict.get k d) eqn:G; [exact H|].
  apply get_None_keys in G.
  apply NoDup_app; [exact H | repeat constructor; intros [] |].
  intros a Ha [<- | []]. contradiction.
Qed.

Lemma set_values {V : Type} (P : V -> Prop) (k : string) (v : V)
    (d : pydict.dict V) :
  P v -> Forall (fun entry => P (snd entry)) d ->
  Forall (fun entry => P (snd entry)) (pydict.set k v d).
Proof.
  intros Hv. induction 1 as [|[k0 v0] d H0 Hd IH]; simpl.
  - repeat constructor. exact Hv.
  - destruct (String.eqb k0 k); constructor; auto.
Qed.

Lemma bendecode_int_well_formed (body : string) (v : bvalue) (rest : string) :
  pyben.bendecode_int body = Some (v, rest) -> well_formed v.
Proof.
  unfold pyben.bendecode_int.
  destruct (match body with
            | String "-" b => (true, b)
            | _ => (false, body)
            end) as [neg body'].
  destruct (pyben.span_digits body') as [ds after].
  destruct ds; [discriminate|].
  destruct after as [|c after]; [discriminate|].
  destruct c as [[] [] [] [] [] [] [] []]; try discriminate.
  intros H. injection H as <- _. constructor.
Qed.

Lemma decode_well_formed (fuel : nat) :
  (forall bits v rest,
      pyben.decode fuel bits = Some (v, rest) -> well_formed v)
  /\ (forall bits lst v rest,
         Forall well_formed lst ->
         pyben.decode_list fuel bits lst = Some (v, rest) -> well_formed v)
  /\ (forall bits dic v rest,
         NoDup (pydict.keys dic) ->
         Forall (fun entry => well_formed (snd entry)) dic ->
         pyben.decode_dict fuel bits dic = Some (v, rest) -> well_formed v).
Proof.
  induction fuel as [|fuel [IHv [IHl IHd]]].
  - repeat split; intros; discriminate.
  - split; [|split].
    + intros [|c s] v rest H; [discriminate|].
      rewrite decode_unfold in H.
      destruct (Ascii.eqb c "i"); [eapply bendecode_int_well_formed; eauto|].
      destruct (Ascii.eqb c "l"); [eapply IHl; eauto|].
      destruct (Ascii.eqb c "d");
        [eapply IHd; eauto; constructor|].
      destruct (pystr.isdigit c); [|discriminate].
      destruct (pyben.bendecode_str (String c s)) as [[t r]|]; [|discriminate].
      injection H as <- _. constructor.
    + intros [|c s] lst v rest Hlst H.
      * simpl in H. destruct (pyben.decode fuel "") as [[item r]|] eqn:E;
          [|discriminate].
        eapply IHl; [|exact H]. apply Forall_app. split; [exact Hlst|].
        repeat constructor. eapply IHv; eauto.
      * rewrite decode_list_unfold in H.
        destruct (Ascii.eqb c "e").
        -- injection H as <- _. now constructor.
        -- destruct (pyben.decode fuel (String c s)) as [[item r]|] eqn:E;
             [|discriminate].
           eapply IHl; [|exact H]. apply Forall_app. split; [exact Hlst|].
           repeat constructor. eapply IHv; eauto.
    + assert (Hstep : forall bits dic v rest,
                NoDup (pydict.keys dic) ->
                Forall (fun entry => well_formed (snd entry)) dic ->
                match pyben.decode fuel bits with
                | Some (BStr key, rest0) =>
                    match pyben.decode fuel rest0 with
                    | Some (item, rest') =>
                        pyben.decode_dict fuel rest' (pydict.set key item dic)
                    | None => None
                    end
                | _ => None
                end = Some (v, rest) -> well_formed v).
      { intros bits dic v rest Hnodup Hall H.
        destruct (pyben.decode fuel bits) as [[[| key | |] r]|] eqn:E;
          try discriminate.
        destruct (pyben.decode fuel r) as [[item r']|] eqn:E'; [|discriminate].
        eapply IHd; [| |exact H].
        - now apply set_keys_NoDup.
        - apply set_values; [eapply IHv; eauto | exact Hall]. }
      intros [|c s] dic v rest Hnodup Hall H.
      * eapply Hstep; eauto.
      * rewrite decode_dict_unfold in H.
        destruct (Ascii.eqb c "e").
        -- injection H as <- _. now constructor.
        -- eapply Hstep; eauto.
Qed.

Lemma bendecode_well_formed (bits : string) (v : bvalue) (n : nat) :
  pyben.bendecode bits = Ok (v, n) -> well_formed v.
Proof.
  unfold pyben.bendecode.
  destruct (pyben.decode _ bits) as [[v' rest]|] eqn:E; [|discriminate].
  intros H. injection H as <- _.
  eapply (proj1 (decode_well_formed _)); eauto.
Qed.

(* ================================================================== *)
(** * The rewriter *)
(* ================================================================== *)

Section Rewrite.

Variables (self : TorrentMaker.t) (now : Z).

Lemma setup_torrent_decoded (bytestring : string) (torrent : bvalue)
    (n : nat) (info : pydict.dict bvalue) :
  pyben.bendecode bytestring = Ok (torrent, n) ->
  bvalue_getitem torrent "info" = Ok (BDict info) ->
  TorrentMaker.setup_torrent self now bytestring = Ok (rewritten self now info).
Proof.
  intros Hdec Hinfo. unfold TorrentMaker.setup_torrent.
  rewrite Hdec. simpl. rewrite Hinfo. reflexivity.
Qed.

Lemma edit_torrent_decoded (bytestring : string) (torrent : bvalue)
    (n : nat) (info : pydict.dict bvalue) :
  pyben.bendecode bytestring = Ok (torrent, n) ->
  bvalue_getitem torrent "info" = Ok (BDict info) ->
  TorrentMaker.edit_torrent self now bytestring
  = Ok (pyben.benencode (rewritten self now info)).
Proof.
  intros Hdec Hinfo. unfold TorrentMaker.edit_torrent.
  now rewrite (setup_torrent_decoded _ _ _ _ Hdec Hinfo).
Qed.

Lemma rewritten_info_get (info : pydict.dict bvalue) (k : string) :
  pydict.get k (rewritten_info self info)
  = if String.eqb "source" k then Some (BStr (TorrentMaker.source self))
    else if String.eqb "private" k
         then Some (BInt (Z.b2z (TorrentMaker.private self)))
         else pydict.get k info.
Proof. unfold rewritten_info. now rewrite order_info_get, !get_set. Qed.



End Rewrite.

(* ================================================================== *)
(** * SHA-1 digests *)
(* ================================================================== *)

Lemma sha1_length (data : string) : List.length (hashlib.sha1 data) = 20%nat.
Proof.
  unfold hashlib.sha1.
  destruct (hashlib.blocks _ _ _) as [[[[h0 h1] h2] h3] h4].
  reflexivity.
Qed.

Lemma hex_length (bytes : list Z) :
  String.length (hashlib.hex bytes) = (2 * List.length bytes)%nat.
Proof. induction bytes as [|b bytes IH]; simpl; [reflexivity | lia]. Qed.

Lemma sha1_hexdigest_length (data : string) :
  String.length (hashlib.sha1_hexdigest data) = 40%nat.
Proof. unfold hashlib.sha1_hexdigest. now rewrite hex_length, sha1_length. Qed.

(* ================================================================== *)
(** * The rewritten document read back *)
(* ================================================================== *)

Lemma strictly_sorted_NoDup (l : list string) :
  StronglySorted key_lt l -> NoDup l.
Proof.
  induction 1 as [|a l Hl IH Ha]; constructor; [|exact IH].
  intros Hin. rewrite Forall_forall in Ha.
  exact (key_lt_irrefl a (Ha a Hin)).
Qed.

Lemma get_values {V : Type} (P : V -> Prop) (d : pydict.dict V)
    (k : string) (v : V) :
  Forall (fun entry => P (snd entry)) d -> pydict.get k d = Some v -> P v.
Proof.
  induction 1 as [|[k0 v0] d H0 Hd IH]; simpl; [discriminate|].
  destruct (String.eqb k0 k); [|exact IH].
  intros H. injection H as <-. exact H0.
Qed.

Lemma order_info_values (P : bvalue -> Prop) (info : pydict.dict bvalue) :
  Forall (fun entry => P (snd entry)) info ->
  Forall (fun entry => P (snd entry)) (TorrentMaker.order_info info).
Proof.
  intros Hinfo. unfold TorrentMaker.order_info.
  assert (H : forall ks acc,
             Forall (fun entry => P (snd entry)) acc ->
             Forall (fun entry => P (snd entry))
                    (fold_left (TorrentMaker.order_step info) ks acc)).
  { induction ks as [|k ks IH]; intros acc Hacc; simpl; [exact Hacc|].
    apply IH. unfold TorrentMaker.order_step.
    destruct (pydict.get k info) as [v|] eqn:G; [|exact Hacc].
    apply set_values; [|exact Hacc]. exact (get_values P info k v Hinfo G). }
  apply H. constructor.
Qed.

Lemma info_well_formed (torrent : bvalue) (info : pydict.dict bvalue) :
  well_formed torrent ->
  bvalue_getitem torrent "info" = Ok (BDict info) ->
  well_formed (BDict info).
Proof.
  intros Hwf. destruct torrent as [| | |d]; try discriminate. simpl.
  destruct (pydict.get "info" d) as [v|] eqn:G; [|discriminate].
  intros H. injection H as ->.
  inversion Hwf as [| | | ? _ Hall]; subst.
  exact (get_values well_formed d "info" (BDict info) Hall G).
Qed.

Lemma rewritten_well_formed (self : TorrentMaker.t) (now : Z)
    (info : pydict.dict bvalue) :
  well_formed (BDict info) -> well_formed (rewritten self now info).
Proof.
  intros Hwf. inversion Hwf as [| | | ? _ Hall]; subst.
  unfold rewritten. apply wf_dict.
  - simpl. repeat (apply NoDup_cons; [simpl; intuition discriminate|]).
    apply NoDup_nil.
  - apply Forall_cons; [apply wf_str|].
    apply Forall_cons; [apply wf_int|].
    apply Forall_cons; [|apply Forall_nil].
    simpl. apply wf_dict.
    + apply strictly_sorted_NoDup, order_info_sorted.
    + unfold rewritten_info. apply order_info_values.
      apply set_values; [apply wf_str|].
      apply set_values; [apply wf_int|]. exact Hall.
Qed.

(** The infohash of a rewritten document: the digest of its info
    dictionary, in hexadecimal. *)
Lemma infohash_rewritten (self : TorrentMaker.t) (now : Z)
    (info : pydict.dict bvalue) :
  well_formed (BDict info) ->
  infohash (pyben.benencode (rewritten self now info))
  = Ok (hashlib.sha1_hexdigest
          (pyben.benencode (BDict (rewritten_info self info)))).
Proof.
  intros Hwf. unfold infohash.
  rewrite (bendecode_benencode _ (rewritten_well_formed self now info Hwf)).
  reflexivity.
Qed.

(** A document read back from its own encoding is the document
    decoded. *)
Lemma bendecode_round_trip (bits : string) (v : bvalue) (n : nat) :
  pyben.bendecode bits = Ok (v, n) ->
  pyben.bendecode (pyben.benencode v)
  = Ok (v, String.length (pyben.benencode v)).
Proof. intros H. apply bendecode_benencode. eapply bendecode_well_formed; eauto. Qed.

(* ================================================================== *)
(** * The example documents *)
(* ================================================================== *)

Lemma example_metainfo_decoded :
  pyben.bendecode example_metainfo = Ok (example_torrent, 121%nat).
Proof. vm_compute. reflexivity. Qed.

Lemma example_metainfo'_decoded :
  pyben.bendecode example_metainfo' = Ok (example_torrent', 108%nat).
Proof. vm_compute. reflexivity. Qed.


(* ================================================================== *)
(** * Canonical order and the infohash (C1, C7) *)
(* ================================================================== *)




(** C7, as stated, fails on the form of the result: [infohash] returns
    the digest as text, forty hexadecimal characters, not twenty bytes. *)
Lemma infohash_returns_hexadecimal_text :
  infohash example_metainfo = Ok "e1224b4d4ea1cc3ee6a5a1740af174df350141b0"
  /\ String.length "e1224b4d4ea1cc3ee6a5a1740af174df350141b0" = 40%nat
  /\ ~ (exists digest, infohash example_metainfo = Ok digest
                       /\ String.length digest = 20%nat).
Proof.
  assert (H : infohash example_metainfo
              = Ok "e1224b4d4ea1cc3ee6a5a1740af174df350141b0")
    by (vm_compute; reflexivity).
  split; [exact H | split; [reflexivity|]].
  intros [digest [Hd Hlen]]. rewrite H in Hd. injection Hd as <-.
  vm_compute in Hlen. discriminate.
Qed.

(** C7 (amended): [infohash] takes the bytes of a metainfo document; when
    they decode to a dictionary with an info entry it encodes that entry
    with the codec, applies SHA-1, whose digest has twenty bytes, and
    returns the digest in hexadecimal, forty characters.  The result is
    determined by the info entry alone. *)
Theorem infohash_is_sha1_hexdigest_of_info
    (bytes : string) (torrent : bvalue) (n : nat) (info : bvalue) :
  pyben.bendecode bytes = Ok (torrent, n) ->
  bvalue_getitem torrent "info" = Ok info ->
  infohash bytes = Ok (hashlib.hex (hashlib.sha1 (pyben.benencode info)))
  /\ List.length (hashlib.sha1 (pyben.benencode info)) = 20%nat
  /\ String.length (hashlib.hex (hashlib.sha1 (pyben.benencode info))) = 40%nat
  /\ forall (bytes' : string) (torrent' : bvalue) (n' : nat),
       pyben.bendecode bytes' = Ok (torrent', n') ->
       bvalue_getitem torrent' "info" = Ok info ->
       infohash bytes' = infohash bytes.
Proof.
  intros Hdec Hinfo.
  assert (H : forall b t m, pyben.bendecode b = Ok (t, m) ->
                bvalue_getitem t "info" = Ok info ->
                infohash b
                = Ok (hashlib.hex (hashlib.sha1 (pyben.benencode info)))).
  { intros b t m Hb Ht. unfold infohash. rewrite Hb. simpl. rewrite Ht.
    reflexivity. }
  repeat split.
  - eapply H; eauto.
  - apply sha1_length.
  - apply sha1_hexdigest_length.
  - intros b' t' m' Hb Ht. rewrite (H _ _ _ Hb Ht). symmetry. eapply H; eauto.
Qed.

(** At the example document. *)
Lemma infohash_is_sha1_hexdigest_of_info_witness :
  infohash example_metainfo
  = Ok (hashlib.hex (hashlib.sha1 (pyben.benencode (BDict example_info))))
  /\ List.length (hashlib.sha1 (pyben.benencode (BDict example_info))) = 20%nat
  /\ String.length
       (hashlib.hex (hashlib.sha1 (pyben.benencode (BDict example_info))))
     = 40%nat
  /\ forall (bytes' : string) (torrent' : bvalue) (n' : nat),
       pyben.bendecode bytes' = Ok (torrent', n') ->
       bvalue_getitem torrent' "info" = Ok (BDict example_info) ->
       infohash bytes' = infohash example_metainfo.
Proof.
  apply (infohash_is_sha1_hexdigest_of_info example_metainfo example_torrent
           121 (BDict example_info)).
  - vm_compute. reflexivity.
  - reflexivity.
Defined.

(* ================================================================== *)
(** * What the rewrite keeps and what it replaces (C2, C3) *)
(* ================================================================== *)






(* ================================================================== *)
(** * Release names and genres (C8, C9) *)
(* ================================================================== *)

(** C8, as stated, fails: [parse_genres] splits the field at its commas
    before any tag is normalised, so the field gives three tags. *)
Lemma parse_genres_splits_folk_world_country :
  utils.parse_genres "Folk, World, & Country" <> [EmptyString].
Proof. vm_compute. discriminate. Qed.

(** C8 (amended): [format_genre] maps the single genre
    "Folk, World, & Country" to the empty tag, so a list holding that
    genre alone is mapped to one empty tag; [parse_genres] on the same
    text as a genre field gives the three tags folk, world and
    &.country. *)
Theorem format_genre_folk_world_country :
  utils.format_genre "Folk, World, & Country" = EmptyString
  /\ map utils.format_genre ["Folk, World, & Country"] = [EmptyString]
  /\ utils.parse_genres "Folk, World, & Country"
     = ["folk"; "world"; "&.country"].
Proof. repeat split; vm_compute; reflexivity. Qed.

(** C9: the title of the example parses to artist Boards of Canada,
    album Music Has the Right to Children, year 1998 and the one genre
    tag electronic. *)
Theorem parse_releasename_boards_of_canada :
  parse_releasename
    "(Electronic) [FLAC] Boards of Canada - Music Has the Right to Children - 1998, WEB"
  = Some (mkReleaseName "Boards of Canada" "Music Has the Right to Children"
                        1998 ["electronic"]).
Proof. vm_compute. reflexivity. Qed.

(* ================================================================== *)
(** * Computations with a trace *)
(* ================================================================== *)

Lemma bindM_Ok {A B : Type} (m : M A) (f : A -> M B)
    (tr tr' : list event) (b : B) :
  bindM m f tr = (tr', Ok b) ->
  exists a tr1, m tr = (tr1, Ok a) /\ f a tr1 = (tr', Ok b).
Proof.
  unfold bindM. destruct (m tr) as [tr1 [a | e]]; intros H.
  - now exists a, tr1.
  - discriminate.
Qed.

Lemma bindM_run_Ok {A B : Type} (m : M A) (f : A -> M B)
    (tr tr1 : list event) (a : A) :
  m tr = (tr1, Ok a) -> bindM m f tr = f a tr1.
Proof. unfold bindM. now intros ->. Qed.

Lemma bindM_run_Raise {A B : Type} (m : M A) (f : A -> M B)
    (tr tr1 : list event) (e : exn) :
  m tr = (tr1, Raise e) -> bindM m f tr = (tr1, Raise e).
Proof. unfold bindM. now intros ->. Qed.

Lemma bindM_lift {A B : Type} (r : result A) (f : A -> M B)
    (tr : list event) :
  bindM (lift r) f tr
  = match r with
    | Ok a => f a tr
    | Raise e => (tr, Raise e)
    end.
Proof. unfold bindM, lift. now destruct r. Qed.

Lemma bindM_emit {B : Type} (e : event) (f : unit -> M B) (tr : list event) :
  bindM (emit e) f tr = f tt (tr ++ [e])%list.
Proof. reflexivity. Qed.

Lemma call_run {A : Type} (e : event) (answer : result A) (tr : list event) :
  call e answer tr = ((tr ++ [e])%list, answer).
Proof. unfold call, bindM, emit, lift. simpl. now destruct answer. Qed.

(* ================================================================== *)
(** * The eligibility step (C5) *)
(* ================================================================== *)



(* ================================================================== *)
(** * The upload step (C4, C10) *)
(* ================================================================== *)

Lemma edit_torrent_run (env : Env) (torrent : Torrent.t)
    (content file : string) (tr : list event) :
  http_get env (Torrent.download_url torrent) = Ok content ->
  String.length content <> 0%nat ->
  TorrentMaker.edit_torrent (maker_of env torrent) (now env) content = Ok file ->
  Redacted.edit_torrent env torrent tr
  = ((tr ++ [HttpGet (Torrent.download_url torrent)])%list, Ok file).
Proof.
  intros Hget Hlen Hedit.
  unfold Redacted.edit_torrent, TorrentMaker.create,
    TorrentMaker.retrieve_torrent. simpl.
  unfold bindM at 1. unfold bindM at 1. rewrite call_run, Hget.
  destruct (String.length content =? 0)%nat eqn:E.
  - apply Nat.eqb_eq in E. contradiction.
  - unfold ret, lift. fold (maker_of env torrent). now rewrite Hedit.
Qed.

Lemma upload_run (env : Env) (torrent : Torrent.t)
    (params : json) (content file : string) (tr : list event) :
  album_params env (Torrent.discogs_release torrent) = Ok params ->
  http_get env (Torrent.download_url torrent) = Ok content ->
  String.length content <> 0%nat ->
  TorrentMaker.edit_torrent (maker_of env torrent) (now env) content = Ok file ->
  Redacted.upload env torrent tr
  = ((tr ++ [HttpGet (Torrent.download_url torrent);
             RedactedPost params (upload_filename torrent) file])%list,
     redacted_post env params (upload_filename torrent) file).
Proof.
  intros Hparams Hget Hlen Hedit. unfold Redacted.upload, Redacted.setup_params.
  unfold bindM at 1. unfold lift at 1. rewrite Hparams.
  rewrite (bindM_run_Ok _ _ _ _ _ (edit_torrent_run env torrent _ _ _ Hget Hlen Hedit)).
  rewrite call_run. now rewrite <- app_assoc.
Qed.

(** When the tracker answers with a status other than success, the
    warning is to be formatted with [response.json()], and the answer,
    already parsed, has no such method: the visit raises and nothing is
    logged. *)
Lemma upload_body_refused (env : Env) (torrent : Torrent.t)
    (tr tr' : list event) (response status : json) :
  Redacted.upload env torrent tr = (tr', Ok response) ->
  json_getitem response "status" = Ok status ->
  json_eq_str status "success" = false ->
  cli.upload_body env torrent tt tr = (tr', Raise AttributeError).
Proof.
  intros Hup Hstatus Hne. unfold cli.upload_body.
  rewrite (bindM_run_Ok _ _ _ _ _ Hup).
  rewrite bindM_lift, Hstatus, Hne. reflexivity.
Qed.


(** A visit of the upload step whose upload the tracker accepts, in
    terms of the rewritten file and its infohash. *)
Lemma upload_body_accepted
    (env : Env) (torrent : Torrent.t) (tr : list event)
    (params : json) (content file : string)
    (response status r groupid torrentid : json) (target : string) :
  album_params env (Torrent.discogs_release torrent) = Ok params ->
  http_get env (Torrent.download_url torrent) = Ok content ->
  String.length content <> 0%nat ->
  TorrentMaker.edit_torrent (maker_of env torrent) (now env) content = Ok file ->
  redacted_post env params (upload_filename torrent) file = Ok response ->
  json_getitem response "status" = Ok status ->
  json_eq_str status "success" = true ->
  json_getitem response "response" = Ok r ->
  json_getitem r "torrentid" = Ok torrentid ->
  json_getitem r "groupid" = Ok groupid ->
  infohash file = Ok target ->
  cli.upload_body env torrent tt tr
  = ((tr ++ [HttpGet (Torrent.download_url torrent);
             RedactedPost params (upload_filename torrent) file;
             log_created groupid torrentid;
             QbtLogin;
             HttpGet (Torrent.download_url torrent);
             QbtTorrentsAdd file "swarmchaser" (Some "myupload") None;
             QbtTorrentsDelete false (Torrent.source_infohash torrent);
             Logging INFO "Torrent file added to qBittorrent" []])%list,
     Ok (Torrent.set_target_infohash (Some target)
           (Torrent.set_last_updated (now env)
              (Torrent.set_status uploaded torrent)), tt)).
Proof.
  intros Hparams Hget Hlen Hedit Hpost Hstatus Hok Hr Htid Hgid Hhash.
  unfold cli.upload_body.
  pose proof (upload_run env torrent params content file tr
                Hparams Hget Hlen Hedit) as Hup.
  rewrite Hpost in Hup. rewrite (bindM_run_Ok _ _ _ _ _ Hup).
  rewrite bindM_lift, Hstatus, Hok.
  rewrite bindM_lift, Hr; cbv beta iota.
  rewrite bindM_lift, Htid; cbv beta iota.
  rewrite bindM_lift; cbv beta iota.
  rewrite bindM_lift, Hgid; cbv beta iota.
  rewrite !bindM_emit.
  assert (Hedit2 : forall tr0,
    Redacted.edit_torrent env
      (Torrent.set_last_updated (now env) (Torrent.set_status uploaded torrent))
      tr0
    = ((tr0 ++ [HttpGet (Torrent.download_url torrent)])%list, Ok file)).
  { intros tr0.
    apply (edit_torrent_run env
             (Torrent.set_last_updated (now env)
                (Torrent.set_status uploaded torrent)) content file tr0);
      assumption. }
  rewrite (bindM_run_Ok _ _ _ _ _ (Hedit2 _)).
  rewrite bindM_lift, Hhash; cbv beta iota. rewrite !bindM_emit.
  unfold ret, log_created. simpl. now rewrite <- !app_assoc.
Qed.

(** C10: a visit of the upload step whose upload the tracker accepts
    (the file fetched for the record decodes to a dictionary with an
    info dictionary).  Beyond setting the status to uploaded, the
    timestamp to the clock and the target infohash to the infohash of
    the rewritten file, the visit fetches and rewrites the file once
    more, adds the rewritten file to the download client (category
    swarmchaser, tag myupload) and deletes from the client, keeping the
    files on disk, the torrent whose hash is the record's source
    infohash. *)
Theorem upload_success_moves_torrent_in_client
    (env : Env) (torrent : Torrent.t) (tr : list event)
    (params : json) (content : string) (doc : bvalue) (n : nat)
    (info : pydict.dict bvalue)
    (response status r groupid torrentid : json) :
  let file :=
    pyben.benencode (rewritten (maker_of env torrent) (now env) info) in
  let target :=
    hashlib.sha1_hexdigest
      (pyben.benencode (BDict (rewritten_info (maker_of env torrent) info))) in
  album_params env (Torrent.discogs_release torrent) = Ok params ->
  http_get env (Torrent.download_url torrent) = Ok content ->
  pyben.bendecode content = Ok (doc, n) ->
  bvalue_getitem doc "info" = Ok (BDict info) ->
  redacted_post env params (upload_filename torrent) file = Ok response ->
  json_getitem response "status" = Ok status ->
  json_eq_str status "success" = true ->
  json_getitem response "response" = Ok r ->
  json_getitem r "torrentid" = Ok torrentid ->
  json_getitem r "groupid" = Ok groupid ->
  cli.upload_body env torrent tt tr
  = ((tr ++ [HttpGet (Torrent.download_url torrent);
             RedactedPost params (upload_filename torrent) file;
             log_created groupid torrentid;
             QbtLogin;
             HttpGet (Torrent.download_url torrent);
             QbtTorrentsAdd file "swarmchaser" (Some "myupload") None;
             QbtTorrentsDelete false (Torrent.source_infohash torrent);
             Logging INFO "Torrent file added to qBittorrent" []])%list,
     Ok (Torrent.set_target_infohash (Some target)
           (Torrent.set_last_updated (now env)
              (Torrent.set_status uploaded torrent)), tt)).
Proof.
  intros file target Hparams Hget Hdec Hinfo Hpost Hstatus Hok Hr Htid Hgid.
  apply (upload_body_accepted env torrent tr params content file
           response status r groupid torrentid target); try assumption.
  - destruct content; [discriminate | simpl; lia].
  - exact (edit_torrent_decoded _ _ _ _ _ _ Hdec Hinfo).
  - apply infohash_rewritten.
    eapply info_well_formed; [|exact Hinfo].
    eapply bendecode_well_formed; eauto.
Qed.

(** At a downloaded record, with a tracker that accepts the upload. *)
Lemma upload_success_moves_torrent_in_client_witness :
  let torrent := example_record 1 downloaded in
  let file :=
    "d8:announce10:http://new13:creation datei1700000000e4:infod6:lengthi100e4:name1:x12:piece lengthi16384e6:pieces20:aaaaaaaaaaaaaaaaaaaa7:privatei1e6:source3:REDee" in
  let params := JDict [("title", JStr "Music Has the Right to Children")] in
  cli.upload_body example_env torrent tt []
  = ([HttpGet "http://jackett/dl/1";
      RedactedPost params "1.torrent" file;
      log_created (JInt 3) (JInt 7);
      QbtLogin;
      HttpGet "http://jackett/dl/1";
      QbtTorrentsAdd file "swarmchaser" (Some "myupload") None;
      QbtTorrentsDelete false "e1224b4d4ea1cc3ee6a5a1740af174df350141b0";
      Logging INFO "Torrent file added to qBittorrent" []],
     Ok (Torrent.set_target_infohash
           (Some "114daccb4740b6a2ac86f8d4901b3ebf61af1836")
           (Torrent.set_last_updated 1700000000
              (Torrent.set_status uploaded torrent)), tt)).
Proof.
  intros torrent file params.
  refine (eq_trans
            (upload_success_moves_torrent_in_client example_env torrent []
               params example_metainfo example_torrent 121 example_info
               success_response (JStr "success")
               (JDict [("groupid", JInt 3); ("torrentid", JInt 7)])
               (JInt 3) (JInt 7) _ _ _ _ _ _ _ _ _ _) _);
    try reflexivity; vm_compute; reflexivity.
Defined.

(* ================================================================== *)
(** * Loops over the selected rows *)
(* ================================================================== *)

Section ForEach.

Context {S : Type}.
Variable selected : Torrent.t -> bool.
Variable body : Torrent.t -> S -> M (Torrent.t * S).

(** Rows that are not selected stay as they are; a selected row is
    related to what the body returned for it. *)
Lemma for_each_rows (R : Torrent.t -> Torrent.t -> Prop) :
  (forall t s tr tr' t' s',
      selected t = true -> body t s tr = (tr', Ok (t', s')) -> R t t') ->
  forall rows s tr tr' rows' s',
    for_each selected body rows s tr = (tr', Ok (rows', s')) ->
    Forall2 (fun t t' => if selected t then R t t' else t' = t) rows rows'.
Proof.
  intros Hbody. induction rows as [|t rows IH]; intros s tr tr' rows' s' H.
  - injection H as _ <- _. constructor.
  - simpl in H. destruct (selected t) eqn:Hsel.
    + apply bindM_Ok in H. destruct H as [[t1 s1] [tr1 [Hb H]]].
      apply bindM_Ok in H. destruct H as [[rows1 s2] [tr2 [Hrest H]]].
      injection H as _ <- _. constructor.
      * rewrite Hsel. eapply Hbody; eauto.
      * eapply IH; eauto.
    + apply bindM_Ok in H. destruct H as [[rows1 s2] [tr2 [Hrest H]]].
      injection H as _ <- _. constructor.
      * now rewrite Hsel.
      * eapply IH; eauto.
Qed.



End ForEach.


(* ================================================================== *)
(** * What a visit can do to the status *)
(* ================================================================== *)

Lemma status_set_status (s : TorrentStatus) (t : Torrent.t) :
  Torrent.status (Torrent.set_status s t) = s.
Proof. reflexivity. Qed.




(* ================================================================== *)
(** * Runs of the pipeline (C6) *)
(* ================================================================== *)


Lemma is_status_true (s : TorrentStatus) (t : Torrent.t) :
  is_status s t = true -> Torrent.status t = s.
Proof. unfold is_status. now destruct (Torrent.status t), s. Qed.

















(* ================================================================== *)
(** * Genre tags *)
(* ================================================================== *)

Lemma all_chars_append (p : ascii -> bool) (a b : string) :
  all_chars p (a ++ b) = all_chars p a && all_chars p b.
Proof.
  induction a as [|c a IH]; simpl; [reflexivity|].
  now rewrite IH, andb_assoc.
Qed.

Lemma all_chars_replace (p : ascii -> bool) (old : ascii) (new s : string) :
  all_chars p new = true ->
  (forall c, Ascii.eqb c old = false -> In c (list_ascii_of_string s) ->
             p c = true) ->
  all_chars p (pystr.replace old new s) = true.
Proof.
  intros Hnew. induction s as [|c s IH]; intros Hs; simpl; [reflexivity|].
  destruct (Ascii.eqb c old) eqn:E.
  - rewrite all_chars_append, Hnew. apply IH.
    intros d Hd Hin. apply Hs; [exact Hd | now right].
  - simpl. rewrite (Hs c E (or_introl eq_refl)). apply IH.
    intros d Hd Hin. apply Hs; [exact Hd | now right].
Qed.

Lemma all_chars_In (p : ascii -> bool) (s : string) :
  all_chars p s = true <-> forall c, In c (list_ascii_of_string s) -> p c = true.
Proof.
  induction s as [|c s IH]; simpl.
  - split; [intros _ d [] | reflexivity].
  - rewrite andb_true_iff, IH. split.
    + intros [Hc Hs] d [<- | Hd]; auto.
    + intros H. split; [apply H; now left | intros d Hd; apply H; now right].
Qed.

Lemma lower_char_not_upper (c : ascii) :
  pystr.isupper (pystr.lower_char c) = false.
Proof. destruct c as [[] [] [] [] [] [] [] []]; reflexivity. Qed.

Lemma lower_not_upper (s : string) :
  all_chars (fun c => negb (pystr.isupper c)) (pystr.lower s) = true.
Proof.
  induction s as [|c s IH]; simpl; [reflexivity|].
  now rewrite lower_char_not_upper, IH.
Qed.

Lemma format_genre_tag (genre : string) :
  all_chars tag_char (utils.format_genre genre) = true.
Proof.
  unfold utils.format_genre.
  destruct (String.eqb genre "Folk, World, & Country"); [reflexivity|].
  apply all_chars_replace; [reflexivity|].
  intros c Hc Hin. unfold tag_char. rewrite Hc. simpl.
  assert (H : all_chars (fun c => negb (pystr.isupper c))
                (pystr.replace "." EmptyString
                   (pystr.lower (pystr.strip genre))) = true).
  { apply all_chars_replace; [reflexivity|].
    intros d _ Hd. revert d Hd. apply all_chars_In, lower_not_upper. }
  rewrite all_chars_In in H. exact (H c Hin).
Qed.

Lemma split_length (sep : ascii) (s : string) :
  List.length (pystr.split sep s) = S (count_char sep s).
Proof.
  induction s as [|c s IH]; simpl; [reflexivity|].
  destruct (Ascii.eqb c sep); simpl; [now rewrite IH|].
  destruct (pystr.split sep s) as [|h t]; simpl in *; [discriminate | exact IH].
Qed.

Lemma contains_count (c : ascii) (s : string) :
  pystr.contains c s = negb (count_char c s =? 0)%nat.
Proof.
  induction s as [|d s IH]; simpl; [reflexivity|].
  rewrite IH, (Ascii.eqb_sym c d).
  now destruct (Ascii.eqb d c).
Qed.

(** X1: the tags [parse_genres] returns.  There is at least one; they
    are one more than the occurrences, in the field, of the first of
    the separators bar, comma and slash that occurs in it (one tag when
    none occurs); and no tag holds a space or a capital letter A to Z. *)
Theorem parse_genres_tags (genres : string) :
  let occurrences :=
    if pystr.contains "|" genres then count_char "|" genres
    else if pystr.contains "," genres then count_char "," genres
    else count_char "/" genres in
  List.length (utils.parse_genres genres) = S occurrences
  /\ utils.parse_genres genres <> []
  /\ Forall (fun tag => all_chars tag_char tag = true)
            (utils.parse_genres genres).
Proof.
  assert (Hlen : List.length (utils.parse_genres genres)
                 = S (if pystr.contains "|" genres then count_char "|" genres
                      else if pystr.contains "," genres
                           then count_char "," genres
                           else count_char "/" genres)).
  { unfold utils.parse_genres. rewrite length_map. simpl.
    destruct (pystr.contains "|" genres); [apply split_length|].
    destruct (pystr.contains "," genres); [apply split_length|].
    destruct (pystr.contains "/" genres) eqn:E; [apply split_length|].
    rewrite contains_count in E. apply negb_false_iff, Nat.eqb_eq in E.
    now rewrite E. }
  split; [exact Hlen | split].
  - intros H. rewrite H in Hlen. discriminate.
  - unfold utils.parse_genres. apply Forall_forall. intros tag Hin.
    apply in_map_iff in Hin. destruct Hin as [g [<- _]].
    apply format_genre_tag.
Qed.

(* ================================================================== *)
(** * The matcher *)
(* ================================================================== *)

Lemma star_sound (p : ascii -> bool) (s : string) :
  forall taken k out,
    re.star p s taken k = Some out ->
    exists t s', s = t ++ s' /\ all_chars p t = true
                 /\ k (taken ++ t) s' = Some out.
Proof.
  induction s as [|c s IH]; intros taken k out H; simpl in H.
  - exists EmptyString, EmptyString. rewrite (append_nil_r taken).
    now repeat split.
  - destruct (p c) eqn:Hc.
    + destruct (re.star p s (taken ++ String c EmptyString) k) as [g|] eqn:E.
      * injection H as <-. apply IH in E.
        destruct E as [t [s' [-> [Ht Hk]]]].
        exists (String c t), s'. simpl. rewrite Hc, Ht.
        rewrite append_assoc in Hk. now repeat split.
      * exists EmptyString, (String c s). rewrite (append_nil_r taken).
        now repeat split.
    + exists EmptyString, (String c s). rewrite (append_nil_r taken).
      now repeat split.
Qed.

Lemma star_complete (p : ascii -> bool) (t : string) :
  forall s' taken k,
    all_chars p t = true ->
    k (taken ++ t) s' <> None ->
    re.star p (t ++ s') taken k <> None.
Proof.
  induction t as [|c t IH]; intros s' taken k Ht Hk; simpl.
  - rewrite append_nil_r in Hk. destruct s' as [|c s']; simpl; [exact Hk|].
    destruct (p c); [|exact Hk].
    now destruct (re.star p s' (taken ++ String c EmptyString) k).
  - simpl in Ht. apply andb_true_iff in Ht. destruct Ht as [Hc Ht].
    rewrite Hc.
    assert (H : re.star p (t ++ s') (taken ++ String c EmptyString) k <> None).
    { apply IH; [exact Ht|]. now rewrite append_assoc. }
    now destruct (re.star p (t ++ s') (taken ++ String c EmptyString) k).
Qed.

Lemma run_lit (w : string) :
  forall s g k,
    re.run (re.lit w) s g k
    = match pyben.take (String.length w) s with
      | Some (t, s') => if String.eqb t w then k w s' g else None
      | None => None
      end.
Proof.
  induction w as [|c w IH]; intros s g k; simpl.
  - reflexivity.
  - destruct s as [|d s]; [reflexivity|].
    unfold re.lit_char. rewrite (Ascii.eqb_sym c d).
    destruct (Ascii.eqb d c) eqn:E.
    + apply Ascii.eqb_eq in E. subst d. rewrite IH.
      destruct (pyben.take (String.length w) s) as [[t s']|]; [|reflexivity].
      simpl. rewrite Ascii.eqb_refl. reflexivity.
    + destruct (pyben.take (String.length w) s) as [[t s']|]; [|reflexivity].
      simpl. now rewrite E.
Qed.

Lemma take_Some (n : nat) (s t s' : string) :
  pyben.take n s = Some (t, s') -> s = t ++ s' /\ String.length t = n.
Proof.
  revert s t s'. induction n as [|n IH]; intros s t s' H; simpl in H.
  - injection H as <- <-. now split.
  - destruct s as [|c s]; [discriminate|].
    destruct (pyben.take n s) as [[t0 s0]|] eqn:E; [|discriminate].
    injection H as <- <-. apply IH in E. destruct E as [-> <-]. now split.
Qed.

Lemma run_lit_sound (w s : string) (g : re.groups)
    (k : string -> string -> re.groups -> option re.groups)
    (out : re.groups) :
  re.run (re.lit w) s g k = Some out ->
  exists s', s = w ++ s' /\ k w s' g = Some out.
Proof.
  rewrite run_lit.
  destruct (pyben.take (String.length w) s) as [[t s']|] eqn:E; [|discriminate].
  destruct (String.eqb_spec t w) as [-> | _]; [|discriminate].
  intros H. apply take_Some in E. exists s'. now split.
Qed.

Lemma run_lit_complete (w s' : string) (g : re.groups)
    (k : string -> string -> re.groups -> option re.groups) :
  re.run (re.lit w) (w ++ s') g k = k w s' g.
Proof. now rewrite run_lit, take_append, String.eqb_refl. Qed.

Lemma run_times_chr (p : ascii -> bool) (n : nat) :
  forall s g k,
    re.run (re.times n (re.Chr p)) s g k
    = match pyben.take n s with
      | Some (t, s') => if all_chars p t then k t s' g else None
      | None => None
      end.
Proof.
  induction n as [|n IH]; intros s g k; simpl.
  - reflexivity.
  - destruct s as [|c s]; [reflexivity|].
    destruct (p c) eqn:Hc.
    + rewrite IH.
      destruct (pyben.take n s) as [[t s']|]; [|reflexivity].
      simpl. now rewrite Hc.
    + destruct (pyben.take n s) as [[t s']|]; [|reflexivity].
      simpl. now rewrite Hc.
Qed.

Lemma isdigit_value (c : ascii) :
  pystr.isdigit c = true ->
  (0 <= Z.of_nat (nat_of_ascii c - 48) <= 9)%Z.
Proof.
  destruct c as [[] [] [] [] [] [] [] []]; intros H;
    try discriminate; vm_compute; split; discriminate.
Qed.

Lemma int_four_digits (y : string) :
  String.length y = 4%nat -> all_chars pystr.isdigit y = true ->
  (0 <= pystr.int y <= 9999)%Z.
Proof.
  destruct y as [|a [|b [|c [|d [|e y]]]]]; try discriminate. intros _.
  simpl. rewrite !andb_true_iff. intros [Ha [Hb [Hc [Hd _]]]].
  apply isdigit_value in Ha, Hb, Hc, Hd.
  unfold pystr.int. cbn [pystr.int_digits]. lia.
Qed.

(* ================================================================== *)
(** * Release names *)
(* ================================================================== *)

Lemma rmatch_sound (releasename : string) (matches : re.groups) :
  re.rmatch releasename_pattern releasename = Some matches ->
  exists genre format artist album year rest,
    releasename = releasename_of genre format artist album year rest
    /\ matches = [("year", year); ("album", album); ("artist", artist);
                  ("format", format); ("genre", genre)]
    /\ all_chars genre_class genre = true
    /\ all_chars pystr.isupper format = true
    /\ all_chars re.dot artist = true
    /\ all_chars re.dot album = true
    /\ String.length year = 4%nat
    /\ all_chars pystr.isdigit year = true.
Proof.
  unfold re.rmatch, releasename_pattern. intros H.
  cbn [re.run] in H.
  apply run_lit_sound in H. destruct H as [s1 [-> H]].
  apply star_sound in H. destruct H as [genre [s2 [-> [Hgenre H]]]].
  apply run_lit_sound in H. destruct H as [s3 [-> H]].
  apply star_sound in H. destruct H as [format [s4 [-> [Hformat H]]]].
  apply run_lit_sound in H. destruct H as [s5 [-> H]].
  apply star_sound in H. destruct H as [artist [s6 [-> [Hartist H]]]].
  apply run_lit_sound in H. destruct H as [s7 [-> H]].
  apply star_sound in H. destruct H as [album [s8 [-> [Halbum H]]]].
  apply run_lit_sound in H. destruct H as [s9 [-> H]].
  rewrite run_times_chr in H.
  destruct (pyben.take 4 s9) as [[year s10]|] eqn:E; [|discriminate].
  destruct (all_chars pystr.isdigit year) eqn:Hyear; [|discriminate].
  apply take_Some in E. destruct E as [-> Hlen].
  apply run_lit_sound in H. destruct H as [rest [-> H]].
  injection H as <-.
  exists genre, format, artist, album, year, rest.
  unfold releasename_of. repeat split; try reflexivity; assumption.
Qed.

(** X2: what a parsed title looks like.  When [parse_releasename] returns
    a release name, the title is an opening parenthesis, a genre field of
    letters, whitespace, commas, periods and hyphens, ") [", a format of
    capitals, "] ", the artist, " - ", the album, " - ", four digits, a
    comma and a space, and then anything; artist and album are the ones
    returned and hold no newline, the year returned is the value of the
    four digits, between 0 and 9999, and the genres returned are those
    of the genre field. *)
Theorem parse_releasename_shape (releasename : string) (release : ReleaseName) :
  parse_releasename releasename = Some release ->
  exists genre format year rest,
    releasename
    = releasename_of genre format (rn_artist release) (rn_album release)
        year rest
    /\ all_chars genre_class genre = true
    /\ all_chars pystr.isupper format = true
    /\ all_chars re.dot (rn_artist release) = true
    /\ all_chars re.dot (rn_album release) = true
    /\ String.length year = 4%nat
    /\ all_chars pystr.isdigit year = true
    /\ rn_year release = pystr.int year
    /\ (0 <= rn_year release <= 9999)%Z
    /\ rn_genres release = utils.parse_genres genre.
Proof.
  unfold parse_releasename.
  destruct (re.rmatch releasename_pattern releasename) as [matches|] eqn:E;
    [|discriminate].
  apply rmatch_sound in E.
  destruct E as [genre [format [artist [album [year [rest
    [-> [-> [Hg [Hf [Har [Hal [Hlen Hy]]]]]]]]]]]]].
  cbn. intros H. injection H as <-. cbn.
  exists genre, format, year, rest.
  repeat split; try assumption; apply int_four_digits; assumption.
Qed.

(** X3: the titles [parse_releasename] accepts.  Every title made of a
    genre field of letters, whitespace, commas, periods and hyphens, a
    format of capitals, an artist and an album without newlines and a
    year of four digits, put together as the pattern has them, is
    parsed, whatever follows the comma and the space after the year. *)
Theorem parse_releasename_accepts
    (genre format artist album year rest : string) :
  all_chars genre_class genre = true ->
  all_chars pystr.isupper format = true ->
  all_chars re.dot artist = true ->
  all_chars re.dot album = true ->
  String.length year = 4%nat ->
  all_chars pystr.isdigit year = true ->
  exists release,
    parse_releasename (releasename_of genre format artist album year rest)
    = Some release.
Proof.
  intros Hg Hf Har Hal Hlen Hy.
  assert (Hmatch :
    re.rmatch releasename_pattern
      (releasename_of genre format artist album year rest) <> None).
  { unfold re.rmatch, releasename_pattern, releasename_of.
    cbn [re.run]. rewrite run_lit_complete.
    apply star_complete; [exact Hg|]. rewrite run_lit_complete.
    apply star_complete; [exact Hf|]. rewrite run_lit_complete.
    apply star_complete; [exact Har|]. rewrite run_lit_complete.
    apply star_complete; [exact Hal|]. rewrite run_lit_complete.
    rewrite run_times_chr. rewrite <- Hlen, take_append, Hy.
    rewrite run_lit_complete. discriminate. }
  unfold parse_releasename.
  destruct (re.rmatch releasename_pattern
              (releasename_of genre format artist album year rest))
    as [matches|] eqn:E; [|contradiction].
  apply rmatch_sound in E.
  destruct E as [g' [f' [ar' [al' [y' [r' [_ [-> _]]]]]]]].
  cbn. eauto.
Qed.

Lemma parse_releasename_accepts_witness :
  exists release,
    parse_releasename
      (releasename_of "Rock, Pop" "FLAC" "A - B" "C" "2001" "WEB")
    = Some release.
Proof.
  apply (parse_releasename_accepts "Rock, Pop" "FLAC" "A - B" "C" "2001" "WEB");
    reflexivity.
Defined.

Lemma parse_releasename_shape_witness :
  exists genre format year rest,
    "(Rock, Pop) [FLAC] A - B - C - 2001, WEB"
    = releasename_of genre format "A - B" "C" year rest
    /\ all_chars genre_class genre = true
    /\ all_chars pystr.isupper format = true
    /\ all_chars re.dot "A - B" = true
    /\ all_chars re.dot "C" = true
    /\ String.length year = 4%nat
    /\ all_chars pystr.isdigit year = true
    /\ 2001%Z = pystr.int year
    /\ (0 <= 2001 <= 9999)%Z
    /\ ["rock"; "pop"] = utils.parse_genres genre.
Proof.
  apply (parse_releasename_shape "(Rock, Pop) [FLAC] A - B - C - 2001, WEB"
           (mkReleaseName "A - B" "C" 2001 ["rock"; "pop"])).
  vm_compute. reflexivity.
Defined.

(* ================================================================== *)
(** * The upload form *)
(* ================================================================== *)

Lemma result_map_length {A B : Type} (f : A -> result B) (l : list A) :
  forall ys, result_map f l = Ok ys -> List.length ys = List.length l.
Proof.
  induction l as [|x l IH]; intros ys H; simpl in H.
  - injection H as <-. reflexivity.
  - destruct (f x) as [y|e]; [|discriminate]. simpl in H.
    destruct (result_map f l) as [ys'|e]; [|discriminate]. simpl in H.
    injection H as <-. simpl. now rewrite (IH ys' eq_refl).
Qed.

Lemma result_map_Forall {A B : Type} (f : A -> result B) (P : B -> Prop)
    (l : list A) :
  (forall x y, f x = Ok y -> P y) ->
  forall ys, result_map f l = Ok ys -> Forall P ys.
Proof.
  intros Hf. induction l as [|x l IH]; intros ys H; simpl in H.
  - injection H as <-. constructor.
  - destruct (f x) as [y|e] eqn:E; [|discriminate]. simpl in H.
    destruct (result_map f l) as [ys'|e]; [|discriminate]. simpl in H.
    injection H as <-. constructor; eauto.
Qed.

Lemma map_const_repeat {A B : Type} (b : B) (l : list A) :
  map (fun _ => b) l = repeat b (List.length l).
Proof. induction l as [|x l IH]; simpl; [reflexivity | now rewrite IH]. Qed.

(** X4: the two parallel fields of the upload form.  Whenever [artists]
    gives the names of a release, [importance] gives as many entries,
    each 1. *)
Theorem importance_parallel_to_artists (release : json) (names : list json) :
  RedactedAlbumParameters.artists release = Ok names ->
  RedactedAlbumParameters.importance release
  = Ok (repeat 1%Z (List.length names)).
Proof.
  unfold RedactedAlbumParameters.artists, RedactedAlbumParameters.importance.
  destruct (json_getitem release "artists") as [found|e]; [|discriminate].
  simpl. destruct (json_iter found) as [members|e]; [|discriminate].
  simpl. intros H. apply result_map_length in H.
  now rewrite map_const_repeat, H.
Qed.

Lemma importance_parallel_to_artists_witness :
  RedactedAlbumParameters.importance example_album = Ok (repeat 1%Z 2).
Proof.
  apply (importance_parallel_to_artists example_album
           [JStr "Boards of Canada"; JStr "Guest"]).
  reflexivity.
Defined.

Lemma first_image_find (type : string) (images : list json) :
  forall r,
    RedactedAlbumParameters.first_image type images = Ok r ->
    match find (has_type type) images with
    | Some image => exists uri, json_getitem image "uri" = Ok uri /\ r = Some uri
    | None => r = None
    end.
Proof.
  induction images as [|image images IH]; intros r H; simpl in H.
  - injection H as <-. reflexivity.
  - simpl. unfold has_type at 1.
    destruct (json_getitem image "type") as [t|e]; [|discriminate].
    simpl in H. destruct (json_eq_str t type).
    + destruct (json_getitem image "uri") as [uri|e]; [|discriminate].
      injection H as <-. eauto.
    + now apply IH.
Qed.

(** X5: the image of the upload form.  When [image] returns, it returns
    the uri of the first image of type primary, if there is one, even
    when images of type secondary come before it; failing that, the uri
    of the first image of type secondary; and [None] when the release
    has neither. *)
Theorem image_prefers_primary (release found uri : json) (images : list json) :
  json_getitem release "images" = Ok found ->
  json_iter found = Ok images ->
  RedactedAlbumParameters.image release = Ok uri ->
  match find (has_type "primary") images with
  | Some image => json_getitem image "uri" = Ok uri
  | None =>
      match find (has_type "secondary") images with
      | Some image => json_getitem image "uri" = Ok uri
      | None => uri = JNull
      end
  end.
Proof.
  intros Hfound Hiter. unfold RedactedAlbumParameters.image.
  rewrite Hfound. simpl. rewrite Hiter. simpl.
  destruct (RedactedAlbumParameters.first_image "primary" images)
    as [primary|e] eqn:E1; [|discriminate].
  apply first_image_find in E1. simpl.
  destruct (find (has_type "primary") images) as [image|].
  - destruct E1 as [u [Hu ->]]. intros H. injection H as <-. exact Hu.
  - subst primary.
    destruct (RedactedAlbumParameters.first_image "secondary" images)
      as [secondary|e] eqn:E2; [|discriminate].
    apply first_image_find in E2. simpl.
    destruct (find (has_type "secondary") images) as [image|].
    + destruct E2 as [u [Hu ->]]. intros H. injection H as <-. exact Hu.
    + subst secondary. intros H. now injection H as <-.
Qed.

Lemma image_prefers_primary_witness :
  json_getitem (JDict [("type", JStr "primary"); ("uri", JStr "http://img/1")])
               "uri"
  = Ok (JStr "http://img/1").
Proof.
  exact (image_prefers_primary example_album example_images
           (JStr "http://img/1")
           [JDict [("type", JStr "secondary"); ("uri", JStr "http://img/2")];
            JDict [("type", JStr "primary"); ("uri", JStr "http://img/1")];
            JDict [("type", JStr "primary"); ("uri", JStr "http://img/3")]]
           eq_refl eq_refl eq_refl).
Defined.

Lemma all_chars_concat (p : ascii -> bool) (sep : string) (l : list string) :
  all_chars p sep = true -> Forall (fun s => all_chars p s = true) l ->
  all_chars p (String.concat sep l) = true.
Proof.
  intros Hsep. induction 1 as [|s l Hs Hl IH]; simpl; [reflexivity|].
  destruct l as [|s' l]; [exact Hs|].
  rewrite !all_chars_append, Hs, Hsep. exact IH.
Qed.

(** X6: the tags of the upload form.  When [tags] returns, the text it
    returns holds no space and no capital letter A to Z: every genre of the
    release has been normalised, and the genres are joined by commas. *)
Theorem tags_hold_no_space (release : json) (text : string) :
  RedactedAlbumParameters.tags release = Ok text ->
  all_chars tag_char text = true.
Proof.
  unfold RedactedAlbumParameters.tags.
  destruct (json_getitem release "genres") as [found|e]; [|discriminate].
  simpl. destruct (json_iter found) as [members|e]; [|discriminate].
  simpl. destruct (result_map format_genre_value members) as [formatted|e] eqn:E;
    [|discriminate].
  simpl. intros H. injection H as <-.
  apply all_chars_concat; [reflexivity|].
  apply (result_map_Forall format_genre_value _ members); [|exact E].
  intros x y Hx. destruct x; try discriminate. injection Hx as <-.
  apply format_genre_tag.
Qed.

Lemma tags_hold_no_space_witness :
  all_chars tag_char "electronic,,hip.hop" = true.
Proof.
  apply (tags_hold_no_space example_album "electronic,,hip.hop").
  reflexivity.
Defined.

(* ================================================================== *)
(** * More on the rewriter *)
(* ================================================================== *)

Lemma setup_torrent_Ok (self : TorrentMaker.t) (now : Z)
    (bytestring : string) (doc : bvalue) :
  TorrentMaker.setup_torrent self now bytestring = Ok doc ->
  exists torrent n info,
    pyben.bendecode bytestring = Ok (torrent, n)
    /\ bvalue_getitem torrent "info" = Ok (BDict info)
    /\ doc = rewritten self now info.
Proof.
  unfold TorrentMaker.setup_torrent.
  destruct (pyben.bendecode bytestring) as [[torrent n]|e] eqn:Hdec;
    [|discriminate].
  simpl. destruct (bvalue_getitem torrent "info") as [info0|e] eqn:Hinfo;
    [|discriminate].
  simpl. destruct info0 as [| | |info]; try discriminate.
  simpl. intros H. injection H as <-. now exists torrent, n, info.
Qed.








(** X10: what [Redacted.upload] sends.  Its calls are, in this order, at
    most one fetch of the record's torrent file and at most one post to
    the tracker.  The post is made only after a fetch that gave a
    non-empty file that could be rewritten, and the file posted decodes
    to a document whose announce entry is the configured URL and whose
    info dictionary has private 1 and source RED. *)
Theorem upload_posts_rewritten_file
    (env : Env) (torrent : Torrent.t) (tr tr' : list event)
    (answer : result json) :
  Redacted.upload env torrent tr = (tr', answer) ->
  (tr' = tr /\ exists e, answer = Raise e)
  \/ (tr' = (tr ++ [HttpGet (Torrent.download_url torrent)])%list
      /\ exists e, answer = Raise e)
  \/ exists params content file doc n new_info,
       tr' = (tr ++ [HttpGet (Torrent.download_url torrent);
                     RedactedPost params (upload_filename torrent) file])%list
       /\ http_get env (Torrent.download_url torrent) = Ok content
       /\ content <> EmptyString
       /\ TorrentMaker.edit_torrent (maker_of env torrent) (now env) content
          = Ok file
       /\ pyben.bendecode file = Ok (doc, n)
       /\ bvalue_getitem doc "announce" = Ok (BStr (REDACTED_ANNOUNCE_URL env))
       /\ bvalue_getitem doc "info" = Ok (BDict new_info)
       /\ pydict.get "private" new_info = Some (BInt 1)
       /\ pydict.get "source" new_info = Some (BStr "RED").
Proof.
  unfold Redacted.upload, Redacted.setup_params. rewrite bindM_lift.
  destruct (album_params env (Torrent.discogs_release torrent)) as [params|e].
  2:{ intros H. injection H as <- <-. left. eauto. }
  unfold Redacted.edit_torrent, TorrentMaker.create,
    TorrentMaker.retrieve_torrent. fold (maker_of env torrent). simpl.
  unfold bindM at 1. unfold bindM at 1. unfold bindM at 1. rewrite call_run.
  destruct (http_get env (Torrent.download_url torrent)) as [content|e] eqn:Hget.
  2:{ intros H. injection H as <- <-. right. left. eauto. }
  destruct (String.length content =? 0)%nat eqn:Hlen.
  { unfold lift. intros H. injection H as <- <-. right. left. eauto. }
  unfold ret, lift.
  destruct (TorrentMaker.edit_torrent (maker_of env torrent) (now env) content)
    as [file|e] eqn:Hedit.
  2:{ intros H. injection H as <- <-. right. left. eauto. }
  rewrite call_run, <- app_assoc. simpl. intros H. injection H as <- _.
  right. right.
  unfold TorrentMaker.edit_torrent in Hedit.
  destruct (TorrentMaker.setup_torrent (maker_of env torrent) (now env) content)
    as [doc|e] eqn:Hsetup; [|discriminate].
  simpl in Hedit. injection Hedit as <-.
  pose proof Hsetup as Hsetup'.
  apply setup_torrent_Ok in Hsetup.
  destruct Hsetup as [t0 [n0 [info [Hdec [Hinfo ->]]]]].
  assert (Hwf : well_formed (BDict info)).
  { eapply info_well_formed; [|exact Hinfo].
    eapply bendecode_well_formed; eauto. }
  exists params, content,
    (pyben.benencode (rewritten (maker_of env torrent) (now env) info)),
    (rewritten (maker_of env torrent) (now env) info),
    (String.length
       (pyben.benencode (rewritten (maker_of env torrent) (now env) info))),
    (rewritten_info (maker_of env torrent) info).
  repeat split;
    try reflexivity;
    try exact Hget;
    try (rewrite rewritten_info_get; reflexivity);
    try (apply bendecode_benencode; now apply rewritten_well_formed);
    try (unfold TorrentMaker.edit_torrent; now rewrite Hsetup').
  intros ->. discriminate.
Qed.

Lemma upload_posts_rewritten_file_witness :
  let torrent := example_record 1 downloaded in
  exists params content file doc n new_info,
    [HttpGet "http://jackett/dl/1";
     RedactedPost (JDict [("title", JStr "Music Has the Right to Children")])
       "1.torrent"
       "d8:announce10:http://new13:creation datei1700000000e4:infod6:lengthi100e4:name1:x12:piece lengthi16384e6:pieces20:aaaaaaaaaaaaaaaaaaaa7:privatei1e6:source3:REDee"]
    = ([] ++ [HttpGet (Torrent.download_url torrent);
              RedactedPost params (upload_filename torrent) file])%list
    /\ http_get example_env (Torrent.download_url torrent) = Ok content
    /\ content <> EmptyString
    /\ TorrentMaker.edit_torrent (maker_of example_env torrent)
         (now example_env) content = Ok file
    /\ pyben.bendecode file = Ok (doc, n)
    /\ bvalue_getitem doc "announce"
       = Ok (BStr (REDACTED_ANNOUNCE_URL example_env))
    /\ bvalue_getitem doc "info" = Ok (BDict new_info)
    /\ pydict.get "private" new_info = Some (BInt 1)
    /\ pydict.get "source" new_info = Some (BStr "RED").
Proof.
  intros torrent.
  destruct (upload_posts_rewritten_file example_env torrent []
              [HttpGet "http://jackett/dl/1";
               RedactedPost
                 (JDict [("title", JStr "Music Has the Right to Children")])
                 "1.torrent"
                 "d8:announce10:http://new13:creation datei1700000000e4:infod6:lengthi100e4:name1:x12:piece lengthi16384e6:pieces20:aaaaaaaaaaaaaaaaaaaa7:privatei1e6:source3:REDee"]
              (Ok success_response) ltac:(vm_compute; reflexivity))
    as [[H _] | [[H _] | H]]; [discriminate | discriminate | exact H].
Defined.

(* ================================================================== *)
(** * More on the runs of the pipeline *)
(* ================================================================== *)

Lemma eligibility_body_outcome (env : Env) (t t' : Torrent.t)
    (u i u' i' : nat) (tr tr' : list event) :
  models.eligibility_body env t (u, i) tr = (tr', Ok (t', (u', i'))) ->
  (Torrent.status t' = eligible /\ u' = S u /\ i' = i)
  \/ (Torrent.status t' = ineligible /\ u' = u /\ i' = S i).
Proof.
  unfold models.eligibility_body.
  destruct (negb (is_status tracked t)); [discriminate|].
  intros H. apply bindM_Ok in H. destruct H as [discogs_id [tr1 [_ H]]].
  destruct discogs_id as [id|].
  - apply bindM_Ok in H. destruct H as [release [tr2 [_ H]]].
    apply bindM_Ok in H. destruct H as [artists [tr3 [_ H]]].
    destruct artists; try discriminate;
      apply bindM_Ok in H; destruct H as [found [tr4 [_ H]]];
      destruct found; simpl in H;
      try (apply bindM_Ok in H; destruct H as [x [tr5 [_ H]]]);
      inversion H; subst; simpl;
      first [left; repeat split; lia | right; repeat split; lia].
  - apply bindM_Ok in H. destruct H as [x [tr2 [_ H]]].
    inversion H; subst. right. simpl. repeat split; lia.
Qed.

Lemma count_status_cons (s : TorrentStatus) (t : Torrent.t)
    (rows : list Torrent.t) :
  count_status s (t :: rows)
  = ((if is_status s t then 1 else 0) + count_status s rows)%nat.
Proof. unfold count_status. simpl. now destruct (is_status s t). Qed.

Lemma is_status_of (s : TorrentStatus) (t : Torrent.t) (s' : TorrentStatus) :
  Torrent.status t = s' -> is_status s t = TorrentStatus_eqb s' s.
Proof. unfold is_status. now intros ->. Qed.

Lemma eligibility_loop_counts (env : Env) (rows : list Torrent.t) :
  forall u i tr tr' rows' u' i',
    for_each (is_status tracked) (models.eligibility_body env) rows (u, i) tr
    = (tr', Ok (rows', (u', i'))) ->
    (u' + count_status eligible rows = u + count_status eligible rows')%nat
    /\ (i' + count_status ineligible rows
        = i + count_status ineligible rows')%nat
    /\ count_status tracked rows' = 0%nat
    /\ (u' + i' = u + i + count_status tracked rows)%nat.
Proof.
  induction rows as [|t rows IH]; intros u i tr tr' rows' u' i' H;
    cbn [for_each] in H.
  - injection H as _ <- <- <-. unfold count_status. simpl. lia.
  - destruct (is_status tracked t) eqn:Hsel.
    + apply bindM_Ok in H. destruct H as [[t1 [u1 i1]] [tr1 [Hb H]]].
      apply bindM_Ok in H. destruct H as [[rows1 [u2 i2]] [tr2 [Hrest H]]].
      injection H as _ <- <- <-.
      apply IH in Hrest. apply eligibility_body_outcome in Hb.
      apply is_status_true in Hsel.
      rewrite !count_status_cons.
      rewrite !(is_status_of _ t tracked Hsel).
      destruct Hb as [[Hs [-> ->]] | [Hs [-> ->]]];
        rewrite !(is_status_of _ t1 _ Hs); simpl; lia.
    + apply bindM_Ok in H. destruct H as [[rows1 [u2 i2]] [tr2 [Hrest H]]].
      injection H as _ <- <- <-.
      apply IH in Hrest. rewrite !count_status_cons, Hsel. lia.
Qed.

(** X11: what a committed run of the eligibility step leaves.  No record
    is tracked any more; and the summary it logs last counts the records
    it made ineligible and the records it made eligible: the two numbers
    are the growth of these two statuses and add up to the number of
    records that were tracked. *)
Theorem update_eligibility_resolves_tracked
    (env : Env) (rows rows' : list Torrent.t) (tr tr' : list event) :
  models.update_eligibility env rows tr = (tr', Ok rows') ->
  count_status tracked rows' = 0%nat
  /\ exists tr1 ineligible_count updated,
       tr' = (tr1 ++ [log_refreshed ineligible_count updated])%list
       /\ (updated + count_status eligible rows
           = count_status eligible rows')%nat
       /\ (ineligible_count + count_status ineligible rows
           = count_status ineligible rows')%nat
       /\ (updated + ineligible_count = count_status tracked rows)%nat.
Proof.
  unfold models.update_eligibility. intros H.
  apply bindM_Ok in H. destruct H as [[rows1 [updated inel]] [tr1 [Hloop H]]].
  rewrite bindM_emit in H. injection H as <- <-.
  apply eligibility_loop_counts in Hloop.
  destruct Hloop as [Hu [Hi [Ht Hsum]]].
  split; [exact Ht|]. exists tr1, inel, updated.
  repeat split; lia.
Qed.


Lemma update_eligibility_resolves_tracked_witness :
  let rows := [example_record 1 tracked; example_record 2 ineligible;
               example_record 3 tracked] in
  exists rows' tr',
    models.update_eligibility example_env rows [] = (tr', Ok rows')
    /\ count_status tracked rows' = 0%nat
    /\ exists tr1 ineligible_count updated,
         tr' = (tr1 ++ [log_refreshed ineligible_count updated])%list
         /\ (updated + count_status eligible rows
             = count_status eligible rows')%nat
         /\ (ineligible_count + count_status ineligible rows
             = count_status ineligible rows')%nat
         /\ (updated + ineligible_count = count_status tracked rows)%nat.
Proof.
  intros rows. eexists. eexists. split; [vm_compute; reflexivity|].
  apply (update_eligibility_resolves_tracked example_env rows _ [] _).
  vm_compute; reflexivity.
Defined.

Lemma for_each_idle {S : Type} (selected : Torrent.t -> bool)
    (body : Torrent.t -> S -> M (Torrent.t * S)) (rows : list Torrent.t)
    (s : S) (tr : list event) :
  filter selected rows = [] ->
  for_each selected body rows s tr = (tr, Ok (rows, s)).
Proof.
  revert s tr. induction rows as [|t rows IH]; intros s tr H.
  - reflexivity.
  - cbn [for_each]. simpl in H. destruct (selected t); [discriminate|].
    rewrite (bindM_run_Ok _ _ _ _ _ (IH s tr H)). reflexivity.
Qed.

Lemma count_status_0 (s : TorrentStatus) (rows : list Torrent.t) :
  count_status s rows = 0%nat -> filter (is_status s) rows = [].
Proof. unfold count_status. now destruct (filter (is_status s) rows). Qed.

Lemma download_loop_rows (env : Env) (existing : list string)
    (category : string) (rows : list Torrent.t) :
  forall s tr tr' rows' s',
    for_each (is_status eligible) (cli.download_body env existing category)
             rows s tr = (tr', Ok (rows', s')) ->
    rows' = map (downloaded_unless_held env existing) rows.
Proof.
  induction rows as [|t rows IH]; intros s tr tr' rows' s' H;
    cbn [for_each] in H.
  - now injection H as _ <- _.
  - cbn [map]. destruct (is_status eligible t) eqn:Hsel.
    + apply bindM_Ok in H. destruct H as [[t1 s1] [tr1 [Hb H]]].
      apply bindM_Ok in H. destruct H as [[rows1 s2] [tr2 [Hrest H]]].
      injection H as _ <- _. apply IH in Hrest. subst rows1.
      f_equal. unfold downloaded_unless_held. rewrite Hsel. cbn [andb].
      unfold cli.download_body, qBittorrent.download_one in Hb.
      destruct s as [successful skipped].
      destruct (existsb (String.eqb (Torrent.source_infohash t)) existing).
      * simpl in Hb. now injection Hb as _ <- _.
      * apply bindM_Ok in Hb. destruct Hb as [[sent c] [tr3 [Hone Hb]]].
        apply bindM_Ok in Hone. destruct Hone as [content [tr4 [_ Hone]]].
        simpl in Hone. injection Hone as _ <- _.
        simpl in Hb. now injection Hb as _ <- _.
    + apply bindM_Ok in H. destruct H as [[rows1 s2] [tr2 [Hrest H]]].
      injection H as _ <- _. apply IH in Hrest. subst rows1.
      f_equal. unfold downloaded_unless_held. now rewrite Hsel.
Qed.

(** X12: which records a committed run of [download] moves.  With
    [existing_torrents] the hashes the client reports for the eligible
    records, an eligible record becomes downloaded, stamped with the
    current time, exactly when its source infohash is not among them; a
    record the client already holds stays eligible, and every other
    record is left as it was. *)
Theorem download_moves_what_client_lacks
    (env : Env) (category : string) (rows rows' : list Torrent.t)
    (existing_torrents : list string) (tr tr' : list event) :
  qbt_torrents_info env
    (String.concat "|"
       (map Torrent.source_infohash (filter (is_status eligible) rows)))
  = Ok existing_torrents ->
  cli.download env category rows tr = (tr', Ok rows') ->
  rows' = map (downloaded_unless_held env existing_torrents) rows.
Proof.
  unfold cli.download, qBittorrent.retrieve_torrents. intros Hinfo H.
  rewrite bindM_emit in H.
  apply bindM_Ok in H. destruct H as [existing [tr1 [Hcall H]]].
  rewrite call_run, Hinfo in Hcall. injection Hcall as _ <-.
  apply bindM_Ok in H. destruct H as [[rows1 [a b]] [tr2 [Hloop H]]].
  rewrite bindM_emit in H. injection H as _ <-.
  eapply download_loop_rows; eauto.
Qed.

Lemma download_moves_what_client_lacks_witness :
  let rows := [example_record 1 eligible; example_record_other;
               example_record 2 tracked] in
  exists tr',
    cli.download example_env_held "swarmchaser" rows []
    = (tr', Ok [example_record 1 eligible;
                Torrent.set_status downloaded
                  (Torrent.set_last_updated 1700000000 example_record_other);
                example_record 2 tracked]).
Proof.
  intros rows.
  assert (H : exists tr' rows',
             cli.download example_env_held "swarmchaser" rows []
             = (tr', Ok rows')).
  { eexists. eexists. vm_compute. reflexivity. }
  destruct H as [tr' [rows' H]]. exists tr'. rewrite H. do 2 f_equal.
  rewrite (download_moves_what_client_lacks example_env_held "swarmchaser"
             rows rows'
             ["e1224b4d4ea1cc3ee6a5a1740af174df350141b0"] [] tr'
             eq_refl H).
  reflexivity.
Defined.

Lemma infohash_length (torrent target : string) :
  infohash torrent = Ok target -> String.length target = 40%nat.
Proof.
  unfold infohash. destruct (pyben.bendecode torrent) as [[doc n]|e];
    [|discriminate].
  cbv beta iota delta [bind].
  destruct (bvalue_getitem doc "info") as [info|e]; [|discriminate].
  intros H. injection H as <-. apply sha1_hexdigest_length.
Qed.

Lemma upload_body_published (env : Env) (t t' : Torrent.t)
    (s s' : unit) (tr tr' : list event) :
  cli.upload_body env t s tr = (tr', Ok (t', s')) ->
  exists target,
    t' = Torrent.set_target_infohash (Some target)
           (Torrent.set_last_updated (now env)
              (Torrent.set_status uploaded t))
    /\ String.length target = 40%nat.
Proof.
  unfold cli.upload_body. intros H.
  apply bindM_Ok in H. destruct H as [response [tr1 [_ H]]].
  apply bindM_Ok in H. destruct H as [status [tr2 [_ H]]].
  destruct (json_eq_str status "success").
  - do 4 (apply bindM_Ok in H; destruct H as [? [? [_ H]]]).
    rewrite !bindM_emit in H.
    apply bindM_Ok in H. destruct H as [file [tr3 [_ H]]].
    apply bindM_Ok in H. destruct H as [target [tr4 [Hhash H]]].
    rewrite !bindM_emit in H. injection H as _ <- _.
    exists target. split; [reflexivity|].
    unfold lift in Hhash. destruct (infohash file) as [h|e] eqn:Hh;
      [|discriminate].
    injection Hhash as _ <-. eapply infohash_length; eauto.
  - apply bindM_Ok in H. destruct H as [body [tr3 [Hbody _]]].
    discriminate.
Qed.

Lemma published_count (env : Env) (rows rows' : list Torrent.t) :
  Forall2 (published env) rows rows' -> count_status downloaded rows' = 0%nat.
Proof.
  induction 1 as [|t t' rows rows' Ht _ IH]; [reflexivity|].
  rewrite count_status_cons, IH. unfold published in Ht.
  destruct (is_status downloaded t) eqn:Hsel.
  - destruct Ht as [target [-> _]]. reflexivity.
  - subst t'. now rewrite Hsel.
Qed.

Lemma upload_loop_published (env : Env) (rows rows' : list Torrent.t)
    (s s' : unit) (tr tr' : list event) :
  for_each (is_status downloaded) (cli.upload_body env) rows s tr
  = (tr', Ok (rows', s')) ->
  Forall2 (published env) rows rows'.
Proof.
  intros H.
  apply (for_each_rows _ _
           (fun t t' => exists target,
              t' = Torrent.set_target_infohash (Some target)
                     (Torrent.set_last_updated (now env)
                        (Torrent.set_status uploaded t))
              /\ String.length target = 40%nat)) in H.
  - exact H.
  - intros t s0 tr0 tr0' t' s0' _ Hb. eapply upload_body_published; eauto.
Qed.

Lemma upload_all_published (env : Env) (limit : option Z) (verify : bool)
    (id : option Z) (rows rows' : list Torrent.t) (tr tr' : list event) :
  cli.truthy id = false ->
  cli.upload env limit verify id rows tr = (tr', Ok rows') ->
  Forall2 (published env) rows rows'.
Proof.
  unfold cli.upload. intros Hid H.
  destruct id as [n|]; [rewrite Hid in H|];
    apply bindM_Ok in H; destruct H as [[rows1 u] [tr1 [Hloop H]]];
    injection H as _ <-; eapply upload_loop_published; eauto.
Qed.

(** X13: what a committed [upload] without [--id] leaves.  Every
    downloaded record is now uploaded, stamped with the current time, and
    carries a target infohash of forty characters; every other record is
    as it was; so no record is left downloaded. *)
Theorem upload_publishes_every_downloaded
    (env : Env) (limit : option Z) (verify : bool) (id : option Z)
    (rows rows' : list Torrent.t) (tr tr' : list event) :
  cli.truthy id = false ->
  cli.upload env limit verify id rows tr = (tr', Ok rows') ->
  Forall2 (published env) rows rows'
  /\ count_status downloaded rows' = 0%nat.
Proof.
  intros Hid H. pose proof (upload_all_published _ _ _ _ _ _ _ _ Hid H) as HP.
  split; [exact HP|]. eapply published_count; eauto.
Qed.

Lemma upload_publishes_every_downloaded_witness :
  let rows := [example_record 1 downloaded; example_record 2 tracked;
               example_record 3 downloaded] in
  exists rows' tr',
    cli.upload example_env None true None rows [] = (tr', Ok rows')
    /\ Forall2 (published example_env) rows rows'
    /\ count_status downloaded rows' = 0%nat.
Proof.
  intros rows. eexists. eexists. split; [vm_compute; reflexivity|].
  eapply (upload_publishes_every_downloaded example_env None true None rows
            _ [] _ eq_refl).
  vm_compute; reflexivity.
Defined.

(** X14: the eligibility step has nothing left to do after a committed
    run of itself.  Run again on the rows just committed, whatever the
    collaborators would answer, it contacts none of them, logs a summary
    of zero and zero, and commits the rows unchanged. *)
Theorem update_eligibility_second_run_is_idle
    (env env' : Env) (rows rows' : list Torrent.t) (tr tr' tr2 : list event) :
  models.update_eligibility env rows tr = (tr', Ok rows') ->
  models.update_eligibility env' rows' tr2
  = ((tr2 ++ [log_refreshed 0 0])%list, Ok rows').
Proof.
  unfold models.update_eligibility at 1. intros H.
  apply bindM_Ok in H. destruct H as [[rows1 [u i]] [tr1 [Hloop H]]].
  rewrite bindM_emit in H. injection H as _ <-.
  apply eligibility_loop_counts in Hloop. destruct Hloop as [_ [_ [Ht _]]].
  unfold models.update_eligibility.
  rewrite (bindM_run_Ok _ _ _ _ _
             (for_each_idle _ (models.eligibility_body env') rows1
                (0, 0)%nat tr2 (count_status_0 _ _ Ht))).
  reflexivity.
Qed.

Lemma update_eligibility_second_run_is_idle_witness :
  let rows := [example_record 1 tracked; example_record 2 ineligible] in
  exists rows' tr',
    models.update_eligibility example_env rows [] = (tr', Ok rows')
    /\ models.update_eligibility example_env_duplicate rows' tr'
       = ((tr' ++ [log_refreshed 0 0])%list, Ok rows').
Proof.
  intros rows. eexists. eexists. split; [vm_compute; reflexivity|].
  eapply (update_eligibility_second_run_is_idle example_env
            example_env_duplicate rows _ [] _ _).
  vm_compute; reflexivity.
Defined.

(** X15: [upload] without [--id] has nothing left to do after a
    committed run of itself.  Run again on the rows just committed,
    whatever the collaborators would answer, it calls none of them and
    commits the rows unchanged. *)
Theorem upload_second_run_is_idle
    (env env' : Env) (limit limit' : option Z) (verify verify' : bool)
    (id id' : option Z) (rows rows' : list Torrent.t)
    (tr tr' tr2 : list event) :
  cli.truthy id = false -> cli.truthy id' = false ->
  cli.upload env limit verify id rows tr = (tr', Ok rows') ->
  cli.upload env' limit' verify' id' rows' tr2 = (tr2, Ok rows').
Proof.
  intros Hid Hid' H.
  pose proof (upload_all_published _ _ _ _ _ _ _ _ Hid H) as HP.
  apply published_count, count_status_0 in HP.
  unfold cli.upload.
  destruct id' as [n|]; [rewrite Hid'|];
    rewrite (bindM_run_Ok _ _ _ _ _
               (for_each_idle _ (cli.upload_body env') rows' tt tr2 HP));
    reflexivity.
Qed.

Lemma upload_second_run_is_idle_witness :
  let rows := [example_record 1 downloaded; example_record 2 tracked] in
  exists rows' tr',
    cli.upload example_env None true None rows [] = (tr', Ok rows')
    /\ cli.upload example_env_refusing (Some 5%Z) false (Some 0%Z) rows' tr'
       = (tr', Ok rows').
Proof.
  intros rows. eexists. eexists. split; [vm_compute; reflexivity|].
  eapply (upload_second_run_is_idle example_env example_env_refusing
            None (Some 5%Z) true false None (Some 0%Z) rows _ [] _ _
            eq_refl eq_refl).
  vm_compute; reflexivity.
Defined.

Lemma find_has_id_None (n : Z) (rows : list Torrent.t) :
  Forall (fun t => Torrent.id t <> n) rows -> find (cli.has_id n) rows = None.
Proof.
  induction 1 as [|t rows Ht _ IH]; [reflexivity|]. simpl.
  unfold cli.has_id at 1. destruct (Z.eqb_spec (Torrent.id t) n); tauto.
Qed.

(** X16: a record id nobody has.  [upload --id n] with [n] not zero and
    [set n discog] both look the record up first, find [None], and raise
    [AttributeError] on its first attribute: no collaborator has been
    called and nothing is committed. *)
Theorem unknown_id_raises_before_any_call
    (env : Env) (limit : option Z) (verify : bool) (n discog : Z)
    (rows : list Torrent.t) (tr : list event) :
  n <> 0%Z ->
  Forall (fun t => Torrent.id t <> n) rows ->
  cli.upload env limit verify (Some n) rows tr = (tr, Raise AttributeError)
  /\ cli.set env n discog rows tr = (tr, Raise AttributeError)
  /\ db (run (cli.upload env limit verify (Some n)) (mkWorld rows tr)) = rows
  /\ db (run (cli.set env n discog) (mkWorld rows tr)) = rows.
Proof.
  intros Hn Hrows. apply find_has_id_None in Hrows.
  assert (Hu : cli.upload env limit verify (Some n) rows tr
               = (tr, Raise AttributeError)).
  { unfold cli.upload, cli.truthy. destruct (Z.eqb_spec n 0); [contradiction|].
    cbn [negb]. now rewrite Hrows. }
  assert (Hs : cli.set env n discog rows tr = (tr, Raise AttributeError)).
  { unfold cli.set. now rewrite Hrows. }
  repeat split; try assumption; unfold run; cbn [db trace];
    [rewrite Hu | rewrite Hs]; reflexivity.
Qed.

Lemma unknown_id_raises_before_any_call_witness :
  let rows := [example_record 1 downloaded; example_record 2 tracked] in
  cli.upload example_env None true (Some 7%Z) rows []
  = ([], Raise AttributeError)
  /\ cli.set example_env 7 42 rows [] = ([], Raise AttributeError)
  /\ db (run (cli.upload example_env None true (Some 7%Z)) (mkWorld rows []))
     = rows
  /\ db (run (cli.set example_env 7 42) (mkWorld rows [])) = rows.
Proof.
  intros rows.
  apply (unknown_id_raises_before_any_call example_env None true 7 42 rows []).
  - discriminate.
  - repeat constructor; discriminate.
Defined.

Lemma for_first_update (env : Env) (id discog : Z) (release : json)
    (rows : list Torrent.t) (tr : list event) :
  discogs_client_release env discog = Ok release ->
  find (cli.has_id id) rows <> None ->
  for_first (cli.has_id id) (cli.set_body env discog) rows tt tr
  = ((tr ++ [DiscogsRelease discog])%list,
     Ok (update_first (cli.has_id id) (with_match discog release) rows, tt)).
Proof.
  intros Hrel. induction rows as [|t rows IH]; intros Hfind.
  - now contradiction Hfind.
  - cbn [for_first update_first]. simpl in Hfind.
    destruct (cli.has_id id t).
    + unfold cli.set_body, Discogs.release.
      rewrite (bindM_run_Ok _ _ _ _ _ (bindM_run_Ok _ _ _ _ _
                 (eq_trans (call_run _ _ _)
                           (f_equal (pair _) Hrel)))).
      reflexivity.
    + rewrite (bindM_run_Ok _ _ _ _ _ (IH Hfind)). reflexivity.
Qed.

Lemma update_first_status (p : Torrent.t -> bool) (f : Torrent.t -> Torrent.t)
    (rows : list Torrent.t) :
  (forall t, Torrent.status (f t) = Torrent.status t) ->
  map Torrent.status (update_first p f rows) = map Torrent.status rows.
Proof.
  intros Hf. induction rows as [|t rows IH]; [reflexivity|]. simpl.
  destruct (p t); simpl; [now rewrite Hf | now rewrite IH].
Qed.

(** X17: what [set id discog] commits.  When some record has this id and
    Discogs answers for the release, Discogs is asked once, and the
    first record with the id gets the release id and the release data
    while every other record, and every status, stays as it was: [set]
    attaches a match to a record whatever its status and moves it
    nowhere. *)
Theorem set_attaches_match_to_first_record
    (env : Env) (id discog : Z) (release : json)
    (rows : list Torrent.t) (tr : list event) :
  discogs_client_release env discog = Ok release ->
  find (cli.has_id id) rows <> None ->
  let rows' := update_first (cli.has_id id) (with_match discog release) rows in
  cli.set env id discog rows tr
  = ((tr ++ [DiscogsRelease discog])%list, Ok rows')
  /\ map Torrent.status rows' = map Torrent.status rows.
Proof.
  intros Hrel Hfind rows'. split.
  - pose proof (for_first_update env id discog release rows tr Hrel Hfind)
      as Hloop.
    unfold cli.set. destruct (find (cli.has_id id) rows); [|contradiction].
    rewrite (bindM_run_Ok _ _ _ _ _ Hloop). reflexivity.
  - apply update_first_status. reflexivity.
Qed.

Lemma set_attaches_match_to_first_record_witness :
  let rows := [example_record 1 ineligible; example_record 2 uploaded;
               example_record 3 tracked] in
  cli.set example_env 2 42 rows []
  = ([DiscogsRelease 42],
     Ok [example_record 1 ineligible;
         with_match 42 example_release (example_record 2 uploaded);
         example_record 3 tracked])
  /\ map Torrent.status
       [example_record 1 ineligible;
        with_match 42 example_release (example_record 2 uploaded);
        example_record 3 tracked]
     = [ineligible; uploaded; tracked].
Proof.
  intros rows.
  apply (set_attaches_match_to_first_record example_env 2 42 example_release
           rows [] eq_refl).
  discriminate.
Defined.

(* ================================================================== *)
(** * Inserting the results of a search *)
(* ================================================================== *)

Lemma find_rutracker_id_In (n : Z) (session : list Torrent.t) :
  find (models.has_rutracker_id n) session <> None
  <-> In n (map Torrent.rutracker_id session).
Proof.
  induction session as [|t session IH]; simpl.
  - tauto.
  - unfold models.has_rutracker_id at 1.
    destruct (Z.eqb_spec (Torrent.rutracker_id t) n).
    + split; [auto | discriminate].
    + rewrite IH. tauto.
Qed.

Lemma retrieve_infohash_length (env : Env) (torrent : JackettResult.t)
    (tr tr' : list event) (h : string) :
  JackettResult.retrieve_infohash env torrent tr = (tr', Ok h) ->
  String.length h = 40%nat.
Proof.
  unfold JackettResult.retrieve_infohash. intros H.
  apply bindM_Ok in H. destruct H as [content [tr1 [_ H]]].
  unfold lift in H. destruct (infohash content) as [h'|e] eqn:Hh;
    [|discriminate].
  injection H as _ <-. eapply infohash_length; eauto.
Qed.

Lemma fresh_row_more (env : Env) (torrent : JackettResult.t)
    (torrents : list JackettResult.t) (row : Torrent.t) :
  fresh_row env torrents row -> fresh_row env (torrent :: torrents) row.
Proof.
  unfold fresh_row. intros [H1 [H2 [H3 [H4 [H5 [r [Hin H]]]]]]].
  repeat split; try assumption. exists r. split; [now right | exact H].
Qed.

Lemma insert_loop_rows (env : Env) (torrents : list JackettResult.t) :
  forall session added skipped tr tr' rows' added' skipped',
    models.insert_loop env torrents session (added, skipped) tr
    = (tr', Ok (rows', (added', skipped'))) ->
    exists new,
      rows' = (session ++ new)%list
      /\ Forall (fresh_row env torrents) new
      /\ added' = (added + List.length new)%nat
      /\ (added' + skipped' = added + skipped + List.length torrents)%nat
      /\ Forall (fun torrent =>
                   In (JackettResult.id torrent)
                      (map Torrent.rutracker_id rows')) torrents
      /\ (NoDup (map Torrent.rutracker_id session) ->
          NoDup (map Torrent.rutracker_id rows')).
Proof.
  induction torrents as [|torrent torrents IH];
    intros session added skipped tr tr' rows' added' skipped' H;
    cbn [models.insert_loop] in H.
  - injection H as _ <- <- <-. exists []. rewrite app_nil_r. simpl.
    repeat split; try constructor; try lia. auto.
  - destruct (find (models.has_rutracker_id (JackettResult.id torrent)) session)
      as [x|] eqn:Hfind.
    + rewrite bindM_emit in H. apply IH in H.
      destruct H as [new [-> [Hnew [Ha [Hs [Hall Hdup]]]]]].
      exists new. repeat split; try assumption.
      * eapply Forall_impl; [|exact Hnew]. intros row.
        apply fresh_row_more.
      * simpl. lia.
      * constructor; [|exact Hall].
        rewrite map_app. apply in_or_app. left.
        apply find_rutracker_id_In. now rewrite Hfind.
    + rewrite bindM_emit in H.
      apply bindM_Ok in H. destruct H as [h [tr1 [Hh H]]].
      apply retrieve_infohash_length in Hh.
      apply IH in H.
      destruct H as [new [-> [Hnew [Ha [Hs [Hall Hdup]]]]]].
      set (row := models.new_row env (models.next_id session) torrent h) in *.
      exists (row :: new). rewrite <- app_assoc. simpl.
      repeat split; try assumption.
      * constructor.
        -- unfold fresh_row. repeat split; try reflexivity; try exact Hh.
           exists torrent. repeat split; try reflexivity. now left.
        -- eapply Forall_impl; [|exact Hnew]. intros r. apply fresh_row_more.
      * simpl. lia.
      * simpl in *. lia.
      * constructor.
        -- rewrite map_app. apply in_or_app. right. now left.
        -- rewrite <- app_assoc in Hall. exact Hall.
      * intros Hnodup. rewrite <- app_assoc in Hdup. apply Hdup.
        rewrite map_app. simpl.
        apply NoDup_app. repeat split.
        -- exact Hnodup.
        -- repeat constructor. auto.
        -- intros n Hn [<-|[]].
           apply find_rutracker_id_In in Hn. now rewrite Hfind in Hn.
Qed.

(** X18: what a committed [insert_torrents] leaves.  The rows that were
    there are kept, in place and unchanged; the rows added come after
    them, each tracked, stamped with the current time, without a match
    or a target infohash, and copied from one of the search results;
    afterwards every search result has a row with its tracker id.  The
    summary logged last counts the rows added and the results skipped,
    which together are all the results. *)
Theorem insert_torrents_appends_tracked_rows
    (env : Env) (torrents : list JackettResult.t)
    (rows rows' : list Torrent.t) (tr tr' : list event) :
  models.insert_torrents env torrents rows tr = (tr', Ok rows') ->
  exists new tr1 skipped,
    rows' = (rows ++ new)%list
    /\ Forall (fresh_row env torrents) new
    /\ Forall (fun torrent =>
                 In (JackettResult.id torrent)
                    (map Torrent.rutracker_id rows')) torrents
    /\ tr' = (tr1 ++ [log_inserted (List.length new) skipped])%list
    /\ (List.length new + skipped = List.length torrents)%nat.
Proof.
  unfold models.insert_torrents. intros H.
  apply bindM_Ok in H. destruct H as [[rows1 [added skipped]] [tr1 [Hloop H]]].
  rewrite bindM_emit in H. injection H as <- <-.
  apply insert_loop_rows in Hloop.
  destruct Hloop as [new [-> [Hnew [Ha [Hs [Hall _]]]]]].
  exists new, tr1, skipped. simpl in Ha. subst added.
  repeat split; try assumption; simpl in Hs; lia.
Qed.

Lemma insert_torrents_appends_tracked_rows_witness :
  let torrents := [example_result 101; example_result 105;
                   example_result 105] in
  let rows := [example_record 1 uploaded] in
  exists rows' tr',
    models.insert_torrents example_env torrents rows [] = (tr', Ok rows')
    /\ exists new tr1 skipped,
         rows' = (rows ++ new)%list
         /\ Forall (fresh_row example_env torrents) new
         /\ Forall (fun torrent =>
                      In (JackettResult.id torrent)
                         (map Torrent.rutracker_id rows')) torrents
         /\ tr' = (tr1 ++ [log_inserted (List.length new) skipped])%list
         /\ (List.length new + skipped = List.length torrents)%nat.
Proof.
  intros torrents rows. eexists. eexists. split; [vm_compute; reflexivity|].
  apply (insert_torrents_appends_tracked_rows example_env torrents rows _ [] _).
  vm_compute; reflexivity.
Defined.

(** X19: [insert_torrents] never tracks a release twice.  When no two
    rows share a tracker id before, none do after a committed run, even
    when the search results themselves repeat an id. *)
Theorem insert_torrents_keeps_tracker_ids_distinct
    (env : Env) (torrents : list JackettResult.t)
    (rows rows' : list Torrent.t) (tr tr' : list event) :
  NoDup (map Torrent.rutracker_id rows) ->
  models.insert_torrents env torrents rows tr = (tr', Ok rows') ->
  NoDup (map Torrent.rutracker_id rows').
Proof.
  unfold models.insert_torrents. intros Hnodup H.
  apply bindM_Ok in H. destruct H as [[rows1 [added skipped]] [tr1 [Hloop H]]].
  rewrite bindM_emit in H. injection H as _ <-.
  apply insert_loop_rows in Hloop.
  destruct Hloop as [new [_ [_ [_ [_ [_ Hdup]]]]]]. auto.
Qed.

Lemma insert_torrents_keeps_tracker_ids_distinct_witness :
  let torrents := [example_result 101; example_result 105;
                   example_result 105] in
  let rows := [example_record 1 uploaded] in
  exists rows' tr',
    models.insert_torrents example_env torrents rows [] = (tr', Ok rows')
    /\ map Torrent.rutracker_id rows' = [101; 105]%Z
    /\ NoDup (map Torrent.rutracker_id rows').
Proof.
  intros torrents rows. eexists. eexists.
  split; [vm_compute; reflexivity|]. split; [reflexivity|].
  eapply (insert_torrents_keeps_tracker_ids_distinct example_env torrents rows
            _ [] _).
  - repeat constructor. simpl. tauto.
  - vm_compute; reflexivity.
Defined.

Lemma insert_loop_known (env : Env) (session : list Torrent.t)
    (torrents : list JackettResult.t) :
  Forall (fun torrent =>
            In (JackettResult.id torrent) (map Torrent.rutracker_id session))
         torrents ->
  forall added skipped tr,
    models.insert_loop env torrents session (added, skipped) tr
    = ((tr ++ map log_exists torrents)%list,
       Ok (session, (added, skipped + List.length torrents)%nat)).
Proof.
  induction 1 as [|torrent torrents Hin _ IH]; intros added skipped tr.
  - simpl. unfold ret. now rewrite app_nil_r, Nat.add_0_r.
  - cbn [models.insert_loop].
    apply find_rutracker_id_In in Hin.
    destruct (find (models.has_rutracker_id (JackettResult.id torrent)) session);
      [|contradiction].
    rewrite bindM_emit, IH. cbn [map List.length].
    rewrite <- app_assoc. cbn [app].
    now replace (skipped + 1 + List.length torrents)%nat
      with (skipped + S (List.length torrents))%nat by lia.
Qed.

(** X20: inserting the same search results again adds nothing.  After a
    committed [insert_torrents], a second run over the same results,
    whatever the collaborators would answer, fetches no torrent file:
    it logs every result as existing, then a summary of zero added and
    all skipped, and commits the rows unchanged. *)
Theorem insert_torrents_again_adds_nothing
    (env env' : Env) (torrents : list JackettResult.t)
    (rows rows' : list Torrent.t) (tr tr' tr2 : list event) :
  models.insert_torrents env torrents rows tr = (tr', Ok rows') ->
  models.insert_torrents env' torrents rows' tr2
  = ((tr2 ++ map log_exists torrents
          ++ [log_inserted 0 (List.length torrents)])%list,
     Ok rows').
Proof.
  unfold models.insert_torrents at 1. intros H.
  apply bindM_Ok in H. destruct H as [[rows1 [added skipped]] [tr1 [Hloop H]]].
  rewrite bindM_emit in H. injection H as _ <-.
  apply insert_loop_rows in Hloop.
  destruct Hloop as [new [_ [_ [_ [_ [Hall _]]]]]].
  unfold models.insert_torrents.
  rewrite (bindM_run_Ok _ _ _ _ _
             (insert_loop_known env' rows1 torrents Hall 0%nat 0%nat tr2)).
  rewrite bindM_emit. unfold ret. rewrite <- app_assoc. reflexivity.
Qed.

Lemma insert_torrents_again_adds_nothing_witness :
  let torrents := [example_result 101; example_result 105] in
  let rows := [example_record 1 uploaded] in
  exists rows' tr',
    models.insert_torrents example_env torrents rows [] = (tr', Ok rows')
    /\ models.insert_torrents example_env_refusing torrents rows' tr'
       = ((tr' ++ map log_exists torrents
               ++ [log_inserted 0 (List.length torrents)])%list,
          Ok rows').
Proof.
  intros torrents rows. eexists. eexists.
  split; [vm_compute; reflexivity|].
  eapply (insert_torrents_again_adds_nothing example_env example_env_refusing
            torrents rows _ [] _ _).
  vm_compute; reflexivity.
Defined.
